(** * Emlee: a shallow embedding of [main.py]

    The viewer object of [main.py] is modelled by explicit state passing:
    [EmailViewer]'s attributes and the widgets it writes to are the fields of
    a record, the temporary files it writes are a finite map from path to
    bytes, and every method is a computation in a small state-and-exception
    monad.  What the Python libraries hand to the program (the parsed MIME
    tree, the directory listing of [glob.glob], the outcome of opening a
    file) is the environment the methods run in. *)

From Stdlib Require Import ZArith Ascii Strings.Byte Sorting.Sorted Sorting.Permutation.
From stdpp Require Import gmap strings list fin_maps.

Local Open Scope Z_scope.

(** ** Python strings *)

Module Py.

(** [chr(34)], the double quote. *)
Definition dquote : ascii := "034"%char.

(** [str.lower] on ASCII letters. *)
Definition lower_char (c : ascii) : ascii :=
  let n := nat_of_ascii c in
  if ((65 <=? n) && (n <=? 90))%nat then ascii_of_nat (n + 32) else c.

Fixpoint lower (s : string) : string :=
  match s with
  | EmptyString => EmptyString
  | String c r => String (lower_char c) (lower r)
  end.

(** [s.startswith(p)] *)
Definition startswith (s p : string) : bool := String.prefix p s.

(** [s.endswith("/")] *)
Fixpoint endswith_sep (s : string) : bool :=
  match s with
  | EmptyString => false
  | String c EmptyString => Ascii.eqb c "/"
  | String _ r => endswith_sep r
  end.

(** [needle in hay] *)
Fixpoint contains (needle hay : string) : bool :=
  String.prefix needle hay ||
  match hay with
  | EmptyString => false
  | String _ r => contains needle r
  end.

(** Truth value of a string: [bool(s)]. *)
Definition truthy (s : string) : bool :=
  match s with EmptyString => false | _ => true end.

(** [html.escape(s)] with its default [quote=True]: the five replacements,
    [&] first, amount to one substitution per character. *)
Definition escape_char (c : ascii) : string :=
  if Ascii.eqb c "&" then "&amp;"
  else if Ascii.eqb c "<" then "&lt;"
  else if Ascii.eqb c ">" then "&gt;"
  else if Ascii.eqb c dquote then "&quot;"
  else if Ascii.eqb c "'" then "&#x27;"
  else String c EmptyString.

Fixpoint escape (s : string) : string :=
  match s with
  | EmptyString => EmptyString
  | String c r => escape_char c +:+ escape r
  end.

End Py.

(** ** [os.path] (the POSIX flavour, [posixpath]) *)

Module OsPath.

(** [p[:i], p[i:]] for [i = p.rfind('/') + 1]. *)
Fixpoint split_sep (p : string) : string * string :=
  match p with
  | EmptyString => (EmptyString, EmptyString)
  | String c r =>
      let '(h, t) := split_sep r in
      match h with
      | EmptyString =>
          if Ascii.eqb c "/" then (String c EmptyString, t)
          else (EmptyString, String c t)
      | _ => (String c h, t)
      end
  end.

Fixpoint all_sep (s : string) : bool :=
  match s with
  | EmptyString => true
  | String c r => Ascii.eqb c "/" && all_sep r
  end.

(** [s.rstrip('/')] *)
Fixpoint rstrip_sep (s : string) : string :=
  match s with
  | EmptyString => EmptyString
  | String c r =>
      match rstrip_sep r with
      | EmptyString => if Ascii.eqb c "/" then EmptyString else String c EmptyString
      | r' => String c r'
      end
  end.

Definition basename (p : string) : string := snd (split_sep p).

Definition dirname (p : string) : string :=
  let head := fst (split_sep p) in
  if Py.truthy head && negb (all_sep head) then rstrip_sep head else head.

(** [os.path.join(a, b)] *)
Definition join (a b : string) : string :=
  if Py.startswith b "/" then b
  else if negb (Py.truthy a) || Py.endswith_sep a then a +:+ b
  else a +:+ "/" +:+ b.

(** The split of a file name at its last dot, when it has one. *)
Fixpoint split_dot (t : string) : option (string * string) :=
  match t with
  | EmptyString => None
  | String c r =>
      match split_dot r with
      | Some (a, b) => Some (String c a, b)
      | None => if Ascii.eqb c "." then Some (EmptyString, t) else None
      end
  end.

Fixpoint all_dots (s : string) : bool :=
  match s with
  | EmptyString => true
  | String c r => Ascii.eqb c "." && all_dots r
  end.

(** [os.path.splitext(p)]: the extension starts at the last dot of the last
    component, unless only dots come before it there. *)
Definition splitext (p : string) : string * string :=
  let '(h, t) := split_sep p in
  match split_dot t with
  | Some (a, b) => if all_dots a then (p, EmptyString) else (h +:+ a, b)
  | None => (p, EmptyString)
  end.

End OsPath.

(** ** What the libraries hand to the program *)

Inductive exn : Type :=
  | OSError | TypeError | KeyError | LookupError | IndexError.

(** The text an exception is printed with, here the name of its class. *)
Definition exn_name (e : exn) : string :=
  match e with
  | OSError => "OSError"
  | TypeError => "TypeError"
  | KeyError => "KeyError"
  | LookupError => "LookupError"
  | IndexError => "IndexError"
  end.

(** A Python value that is either a [str] or a [bytes]. *)
Inductive PyVal : Type :=
  | PyStr (s : string)
  | PyBytes (b : list byte).

Definition val_truthy (v : PyVal) : bool :=
  match v with
  | PyStr s => Py.truthy s
  | PyBytes b => match b with [] => false | _ => true end
  end.

(** [bool(x)] for an [x] that may be [None]. *)
Definition opt_truthy (o : option PyVal) : bool :=
  match o with Some v => val_truthy v | None => false end.

Definition str_truthy (o : option string) : bool :=
  match o with Some s => Py.truthy s | None => false end.

(** An [email.message.EmailMessage] as [BytesParser(policy=policy.default)]
    returns it: the header fields in order, and the outcome of each accessor
    [load_eml] calls on a part. *)
#[warnings="-register-all"]
Inductive Message : Type := mkMessage {
  msg_headers : list (string * string);
  get_content_type : string;
  get_filename : option string;
  get_content : exn + PyVal;
  (** [get_payload(decode=True)], [None] on a multipart container *)
  get_payload : option (list byte);
  (** the sub-parts, when [is_multipart()] *)
  msg_parts : option (list Message)
}.

Definition is_multipart (m : Message) : bool :=
  match msg_parts m with Some _ => true | None => false end.

(** [msg.get(name)]: the first field of that name, names compared without case. *)
Definition get (m : Message) (name : string) : option string :=
  snd <$> List.find (fun kv => String.eqb (Py.lower (fst kv)) (Py.lower name))
                    (msg_headers m).

Definition get_default (m : Message) (name dflt : string) : string :=
  default dflt (get m name).

(** [get_content_disposition()] is [None] exactly when the part has no
    [Content-Disposition] field; the source only tests it against [None]. *)
Definition content_disposition_is_None (m : Message) : bool :=
  match get m "content-disposition" with None => true | Some _ => false end.

(** [msg.walk()]: the part itself, then its sub-parts, depth first. *)
Fixpoint walk (m : Message) : list Message :=
  m :: match msg_parts m with
       | Some l => flat_map walk l
       | None => []
       end.

(** An attachment of an [extract_msg.Message]. *)
Record MsgAttachment : Type := mkMsgAttachment {
  longFilename : option string;
  shortFilename : option string;
  (** [att.data]; [None] stands for a value [f.write] refuses *)
  att_data : option (list byte)
}.

(** An [extract_msg.Message]. *)
Record MsgFile : Type := mkMsgFile {
  msg_sender : option string;
  msg_to : option string;
  msg_cc : option string;
  msg_bcc : option string;
  msg_date : option string;
  msg_subject : option string;
  htmlBody : option PyVal;
  msg_body : option PyVal;
  msg_attachments : list MsgAttachment
}.

(** The files written so far: path to content. *)
Abbreviation Files := (gmap string (list byte)).

Record Env : Type := mkEnv {
  (** whether [import extract_msg] succeeded *)
  extract_msg : bool;
  (** [glob.glob(pattern)] *)
  glob : string -> list string;
  (** [tempfile.gettempdir()] *)
  gettempdir : string;
  (** [open(file_path, 'rb')] followed by [BytesParser(...).parse(f)] *)
  parse_eml : string -> exn + Message;
  (** [extract_msg.Message(file_path)] *)
  read_msg : string -> exn + MsgFile;
  (** [b.decode("utf-8", errors="replace")] *)
  decode_utf8 : list byte -> string;
  (** whether [open(path, 'wb')] and the write of these bytes succeed *)
  can_write : Files -> string -> list byte -> bool
}.

(** ** The viewer *)

Record Labels : Type := mkLabels {
  label_from : string;
  label_to : string;
  label_cc : string;
  label_bcc : string;
  label_subject : string;
  label_date : string
}.

Record Viewer : Type := mkViewer {
  window_title : string;
  current_email_path : option string;
  email_files_list : list string;
  current_index : Z;
  (** [self.attachments]: attachment filename to temporary file path *)
  attachments : gmap string string;
  labels : Labels;
  (** the HTML last given to [body_text.setHtml] *)
  body_text : string;
  (** the item texts of the [attachments_list] widget *)
  attachments_list : list string;
  (** the files written by the program *)
  files : Files;
  (** the texts of the warning boxes shown *)
  warnings : list string;
  (** the lines printed *)
  stdout : list string
}.

(** [EmailViewer.__init__] and [init_ui]. *)
Definition init_viewer (fs : Files) : Viewer :=
  {| window_title := "Emlee"; current_email_path := None;
     email_files_list := []; current_index := -1; attachments := ∅;
     labels := mkLabels "From: " "To: " "CC: " "BCC: " "Subject: " "Date: ";
     body_text := ""; attachments_list := []; files := fs;
     warnings := []; stdout := [] |}.

Definition set_window_title (x : string) (v : Viewer) : Viewer :=
  mkViewer x (current_email_path v) (email_files_list v) (current_index v)
    (attachments v) (labels v) (body_text v) (attachments_list v) (files v)
    (warnings v) (stdout v).
Definition set_current_email_path (x : option string) (v : Viewer) : Viewer :=
  mkViewer (window_title v) x (email_files_list v) (current_index v)
    (attachments v) (labels v) (body_text v) (attachments_list v) (files v)
    (warnings v) (stdout v).
Definition set_email_files_list (x : list string) (v : Viewer) : Viewer :=
  mkViewer (window_title v) (current_email_path v) x (current_index v)
    (attachments v) (labels v) (body_text v) (attachments_list v) (files v)
    (warnings v) (stdout v).
Definition set_current_index (x : Z) (v : Viewer) : Viewer :=
  mkViewer (window_title v) (current_email_path v) (email_files_list v) x
    (attachments v) (labels v) (body_text v) (attachments_list v) (files v)
    (warnings v) (stdout v).
Definition set_attachments (x : gmap string string) (v : Viewer) : Viewer :=
  mkViewer (window_title v) (current_email_path v) (email_files_list v)
    (current_index v) x (labels v) (body_text v) (attachments_list v) (files v)
    (warnings v) (stdout v).
Definition set_labels (x : Labels) (v : Viewer) : Viewer :=
  mkViewer (window_title v) (current_email_path v) (email_files_list v)
    (current_index v) (attachments v) x (body_text v) (attachments_list v)
    (files v) (warnings v) (stdout v).
Definition set_body_text (x : string) (v : Viewer) : Viewer :=
  mkViewer (window_title v) (current_email_path v) (email_files_list v)
    (current_index v) (attachments v) (labels v) x (attachments_list v)
    (files v) (warnings v) (stdout v).
Definition set_attachments_list (x : list string) (v : Viewer) : Viewer :=
  mkViewer (window_title v) (current_email_path v) (email_files_list v)
    (current_index v) (attachments v) (labels v) (body_text v) x (files v)
    (warnings v) (stdout v).
Definition set_files (x : Files) (v : Viewer) : Viewer :=
  mkViewer (window_title v) (current_email_path v) (email_files_list v)
    (current_index v) (attachments v) (labels v) (body_text v)
    (attachments_list v) x (warnings v) (stdout v).
Definition set_warnings (x : list string) (v : Viewer) : Viewer :=
  mkViewer (window_title v) (current_email_path v) (email_files_list v)
    (current_index v) (attachments v) (labels v) (body_text v)
    (attachments_list v) (files v) x (stdout v).
Definition set_stdout (x : list string) (v : Viewer) : Viewer :=
  mkViewer (window_title v) (current_email_path v) (email_files_list v)
    (current_index v) (attachments v) (labels v) (body_text v)
    (attachments_list v) (files v) (warnings v) x.

(** ** Computations: viewer state and Python exceptions

    A method either returns or raises; in both cases the viewer is left as
    the statements run so far have made it. *)

Definition M (A : Type) : Type := Viewer -> (exn + A) * Viewer.

#[global] Instance M_ret : MRet M := fun A x v => (inr x, v).
#[global] Instance M_bind : MBind M := fun A B f c v =>
  match c v with
  | (inr x, v') => f x v'
  | (inl e, v') => (inl e, v')
  end.

Definition raise {A : Type} (e : exn) : M A := fun v => (inl e, v).

(** An attribute assignment or a widget call that cannot fail. *)
Definition modify (f : Viewer -> Viewer) : M unit := fun v => (inr tt, f v).

(** A library call that returns or raises without touching the viewer. *)
Definition lift {A : Type} (r : exn + A) : M A := fun v => (r, v).

(** [for x in l: body] *)
Fixpoint for_each {A : Type} (l : list A) (body : A -> M unit) : M unit :=
  match l with
  | [] => mret tt
  | x :: r => body x ;; for_each r body
  end.

(** [try: body / except Exception as e: handler] *)
Definition try_except (body : M unit) (handler : exn -> M unit) : M unit :=
  fun v => match body v with
           | (inl e, v') => handler e v'
           | r => r
           end.

(** ** The methods of [EmailViewer] *)

(** [sorted(files, key=lambda s: s.lower())]: a stable sort on the lowered
    strings, compared character by character. *)
Definition key_le (a b : string) : bool := String.leb (Py.lower a) (Py.lower b).

Fixpoint insert_sorted (x : string) (l : list string) : list string :=
  match l with
  | [] => [x]
  | y :: r => if key_le x y then x :: y :: r else y :: insert_sorted x r
  end.

Fixpoint sorted (l : list string) : list string :=
  match l with
  | [] => []
  | x :: r => insert_sorted x (sorted r)
  end.

(** [l.index(x)], [None] standing for [ValueError]. *)
Fixpoint index (l : list string) (x : string) : option Z :=
  match l with
  | [] => None
  | y :: r => if String.eqb y x then Some 0 else Z.succ <$> index r x
  end.

(** [l[i]] for a Python integer [i]: negative indices count from the end. *)
Definition getitem (l : list string) (i : Z) : exn + string :=
  let n := Z.of_nat (length l) in
  let j := if i <? 0 then i + n else i in
  if (0 <=? j) && (j <? n) then
    match l !! Z.to_nat j with Some x => inr x | None => inl IndexError end
  else inl IndexError.

(** The text between [<pre>] tags that the plain-text branches build. *)
Definition pre (s : string) : string := "<pre>" +:+ Py.escape s +:+ "</pre>".

(** [html.escape(x)]: [bytes.replace] refuses the [str] arguments. *)
Definition html_escape (x : PyVal) : exn + string :=
  match x with
  | PyStr s => inr (Py.escape s)
  | PyBytes _ => inl TypeError
  end.

(** ["<pre>" + html.escape(x) + "</pre>"] *)
Definition pre_escaped (x : PyVal) : exn + PyVal :=
  match html_escape x with
  | inr s => inr (PyStr ("<pre>" +:+ s +:+ "</pre>"))
  | inl e => inl e
  end.

(** The loop of [load_eml] over [msg.walk()] that fills [html_body] and
    [plain_body]. *)
Fixpoint scan_bodies (parts : list Message) (html_body plain_body : option PyVal)
  : exn + (option PyVal * option PyVal) :=
  match parts with
  | [] => inr (html_body, plain_body)
  | part :: rest =>
      if content_disposition_is_None part then
        if String.eqb (get_content_type part) "text/html" then
          match get_content part with
          | inr c => scan_bodies rest (Some c) plain_body
          | inl e => inl e
          end
        else if String.eqb (get_content_type part) "text/plain" then
          match get_content part with
          | inr c => scan_bodies rest html_body (Some c)
          | inl e => inl e
          end
        else scan_bodies rest html_body plain_body
      else scan_bodies rest html_body plain_body
  end.

(** [if html_body: ... elif plain_body: ...] over the initial [body = ""];
    [load_msg] runs the same three branches with an explicit [else]. *)
Definition select_body (html_body plain_body : option PyVal) : exn + PyVal :=
  if opt_truthy html_body then
    match html_body with Some h => inr h | None => inr (PyStr "") end
  else if opt_truthy plain_body then
    match plain_body with Some p => pre_escaped p | None => inr (PyStr "") end
  else inr (PyStr "").

(** The [else] branch of [load_eml], for a message that is not multipart. *)
Definition single_body (msg : Message) : exn + PyVal :=
  match get_content msg with
  | inl e => inl e
  | inr content =>
      if String.eqb (get_content_type msg) "text/html" then inr content
      else pre_escaped content
  end.

(** The body [load_eml] computes before it shows it. *)
Definition eml_body (msg : Message) : exn + PyVal :=
  if is_multipart msg then
    match scan_bodies (walk msg) None None with
    | inr (html_body, plain_body) => select_body html_body plain_body
    | inl e => inl e
    end
  else single_body msg.

(** [x.decode("utf-8", errors="replace") if isinstance(x, bytes) else x] *)
Definition as_text (decode : list byte -> string) (x : PyVal) : string :=
  match x with PyStr s => s | PyBytes b => decode b end.

(** [x or ""] *)
Definition or_empty (x : option string) : string :=
  match x with Some s => s | None => "" end.

Section Methods.

Variable E : Env.

(** [self.body_text.setHtml(x)]: the widget takes a [str] only. *)
Definition setHtml (x : PyVal) : M unit :=
  match x with
  | PyStr s => modify (set_body_text s)
  | PyBytes _ => raise TypeError
  end.

(** [with open(path, 'wb') as f: f.write(data)].  [open] creates or empties
    the file; a [data] that is [None] is refused by [write] after that.  A
    write the environment refuses leaves the files as they were.  The map
    keeps each file under the path as it was spelled; where two paths are
    compared as files, the statements below do so through [resolve]. *)
Definition write_file (path : string) (data : option (list byte)) : M unit :=
  fun v =>
    match data with
    | Some b =>
        if can_write E (files v) path b
        then (inr tt, set_files (<[path := b]> (files v)) v)
        else (inl OSError, v)
    | None =>
        if can_write E (files v) path []
        then (inl TypeError, set_files (<[path := []]> (files v)) v)
        else (inl OSError, v)
    end.

(** The statements that record a written attachment: the entry of
    [self.attachments] and the item of the list widget. *)
Definition add_attachment (filename temp_path : string) : M unit :=
  modify (fun v => set_attachments (<[filename := temp_path]> (attachments v)) v) ;;
  modify (fun v => set_attachments_list (attachments_list v ++ [filename]) v).

(** The body of the attachment loop of [load_eml]. *)
Definition eml_attachment (part : Message) : M unit :=
  let content_disp := get_default part "Content-Disposition" "" in
  if Py.contains "attachment" content_disp then
    match get_filename part with
    | Some filename =>
        if Py.truthy filename then
          let data := get_payload part in
          let temp_dir := gettempdir E in
          let temp_path := OsPath.join temp_dir filename in
          write_file temp_path data ;;
          add_attachment filename temp_path
        else mret tt
    | None => mret tt
    end
  else mret tt.

Definition load_eml (file_path : string) : M unit :=
  msg ← lift (parse_eml E file_path) ;
  modify (set_labels
    {| label_from := "From: " +:+ get_default msg "From" "";
       label_to := "To: " +:+ get_default msg "To" "";
       label_cc := "CC: " +:+ get_default msg "Cc" "";
       label_bcc := "BCC: " +:+ get_default msg "Bcc" "";
       label_subject := "Subject: " +:+ get_default msg "Subject" "";
       label_date := "Date: " +:+ get_default msg "Date" "" |}) ;;
  body ← lift (eml_body msg) ;
  setHtml body ;;
  for_each (walk msg) eml_attachment.

(** [att.longFilename if att.longFilename else att.shortFilename] *)
Definition att_filename (att : MsgAttachment) : option string :=
  if str_truthy (longFilename att) then longFilename att else shortFilename att.

(** The body of the attachment loop of [load_msg]. *)
Definition msg_attachment (att : MsgAttachment) : M unit :=
  match att_filename att with
  | Some filename =>
      if Py.truthy filename then
        let temp_dir := gettempdir E in
        let temp_path := OsPath.join temp_dir filename in
        try_except
          (write_file temp_path (att_data att) ;;
           add_attachment filename temp_path)
          (fun e => modify (fun v =>
             set_stdout
               (stdout v ++
                ["Error saving attachment " +:+ filename +:+ ": " +:+ exn_name e])
               v))
      else mret tt
  | None => mret tt
  end.

(** The body [load_msg] computes. *)
Definition msg_file_body (msg : MsgFile) : string :=
  if opt_truthy (htmlBody msg) then
    match htmlBody msg with Some h => as_text (decode_utf8 E) h | None => "" end
  else if opt_truthy (msg_body msg) then
    match msg_body msg with
    | Some b => pre (as_text (decode_utf8 E) b)
    | None => ""
    end
  else "".

Definition load_msg (file_path : string) : M unit :=
  msg ← lift (read_msg E file_path) ;
  modify (set_labels
    {| label_from := "From: " +:+ or_empty (msg_sender msg);
       label_to := "To: " +:+ or_empty (msg_to msg);
       label_cc := "CC: " +:+ or_empty (msg_cc msg);
       label_bcc := "BCC: " +:+ or_empty (msg_bcc msg);
       label_subject := "Subject: " +:+ or_empty (msg_subject msg);
       label_date := "Date: " +:+ or_empty (msg_date msg) |}) ;;
  modify (set_body_text (msg_file_body msg)) ;;
  for_each (msg_attachments msg) msg_attachment.

(** The file list and the index [load_email_file] computes for a path. *)
Definition list_files (file_path : string) : list string :=
  let directory := OsPath.dirname file_path in
  let patterns :=
    if extract_msg E
    then [OsPath.join directory "*.eml"; OsPath.join directory "*.msg"]
    else [OsPath.join directory "*.eml"] in
  sorted (flat_map (glob E) patterns).

Definition find_index (l : list string) (file_path : string) : Z :=
  match index l file_path with Some i => i | None => -1 end.

Definition warning (text : string) : M unit :=
  modify (fun v => set_warnings (warnings v ++ [text]) v).

Definition load_email_file (file_path : string) : M unit :=
  modify (set_body_text "<p>Loading email, please wait...</p>") ;;
  modify (set_current_email_path (Some file_path)) ;;
  modify (set_window_title ("Emlee - " +:+ OsPath.basename file_path)) ;;
  modify (set_email_files_list (list_files file_path)) ;;
  modify (fun v => set_current_index (find_index (email_files_list v) file_path) v) ;;
  modify (set_attachments_list []) ;;
  modify (set_attachments ∅) ;;
  let ext := Py.lower (snd (OsPath.splitext file_path)) in
  if String.eqb ext ".eml" then load_eml file_path
  else if String.eqb ext ".msg" then
    if extract_msg E then load_msg file_path
    else warning "MSG file support not available. Please install extract_msg module."
  else warning "Unsupported file format.".

Definition load_next : M unit := fun v =>
  match email_files_list v with
  | [] => (inr tt, v)
  | _ =>
      let next_index := (current_index v + 1) `mod` Z.of_nat (length (email_files_list v)) in
      (p ← lift (getitem (email_files_list v) next_index) ; load_email_file p) v
  end.

Definition load_previous : M unit := fun v =>
  match email_files_list v with
  | [] => (inr tt, v)
  | _ =>
      let prev_index := (current_index v - 1) `mod` Z.of_nat (length (email_files_list v)) in
      (p ← lift (getitem (email_files_list v) prev_index) ; load_email_file p) v
  end.

End Methods.

(** ** The entry points: file dialog, drag and drop, attachment list *)

(** [s.endswith(suffix)] *)
Fixpoint endswith (s suffix : string) : bool :=
  String.eqb s suffix ||
  match s with
  | EmptyString => false
  | String _ r => endswith r suffix
  end.

(** [file_path.lower().endswith(('.eml', '.msg'))] *)
Definition is_email_path (file_path : string) : bool :=
  endswith (Py.lower file_path) ".eml" || endswith (Py.lower file_path) ".msg".

(** What a drag event is answered with. *)
Inductive DragAnswer : Type := acceptProposedAction | ignore.

(** The loop of [dragEnterEvent] over the local paths of the dragged URLs:
    it accepts at the first one that names an email file. *)
Fixpoint drag_urls (urls : list string) : DragAnswer :=
  match urls with
  | [] => ignore
  | file_path :: rest =>
      if is_email_path file_path then acceptProposedAction else drag_urls rest
  end.

Definition dragEnterEvent (hasUrls : bool) (urls : list string) : DragAnswer :=
  if hasUrls then drag_urls urls else ignore.

(** [dropEvent]: only [urls[0]] is looked at. *)
Definition dropEvent (E : Env) (urls : list string) : M unit :=
  match urls with
  | [] => mret tt
  | file_path :: _ =>
      if is_email_path file_path then load_email_file E file_path else mret tt
  end.

(** [open_file_dialog], [file_path] being what the dialog returns: the empty
    string when it is cancelled. *)
Definition open_file_dialog (E : Env) (file_path : string) : M unit :=
  if Py.truthy file_path then load_email_file E file_path else mret tt.

(** The viewer together with the paths handed to [os.startfile] so far. *)
Record Desk : Type := mkDesk {
  viewer : Viewer;
  started : list string
}.

(** [chr(10)] *)
Definition newline : string := String "010"%char EmptyString.

(** [open_attachment(item)] for an item of text [filename]; [startfile]
    tells whether [os.startfile] raises on a path. *)
Definition open_attachment (startfile : string -> option exn)
    (filename : string) (d : Desk) : Desk :=
  match attachments (viewer d) !! filename with
  | Some file_path =>
      match startfile file_path with
      | None => mkDesk (viewer d) (started d ++ [file_path])
      | Some e =>
          mkDesk (set_warnings
                    (warnings (viewer d) ++
                     ["Could not open attachment:" +:+ newline +:+ exn_name e])
                    (viewer d))
                 (started d)
      end
  | None => d
  end.

(** ** The statements compared with the code *)

(** What the two attachment loops leave alone: everything but the attachment
    map, the list widget, the files and the printed lines. *)
Definition same_display (v v' : Viewer) : Prop :=
  window_title v' = window_title v /\
  current_email_path v' = current_email_path v /\
  email_files_list v' = email_files_list v /\
  current_index v' = current_index v /\
  labels v' = labels v /\
  body_text v' = body_text v /\
  warnings v' = warnings v.

(** The body-selection policy in the words of the specification: the HTML
    candidate when there is one, else the plain candidate escaped and
    wrapped, else the empty string; with the [bodyIsHtml] flag. *)
Definition spec_body (html_candidate plain_candidate : option string)
  : string * bool :=
  match html_candidate, plain_candidate with
  | Some h, _ => (h, true)
  | None, Some p => (pre p, false)
  | None, None => ("", false)
  end.

(** A candidate that is the empty string, read as no candidate. *)
Definition nonempty (o : option string) : option string :=
  if str_truthy o then o else None.

(** The same for a [.msg] candidate, which may be a [str] or a [bytes]. *)
Definition present (o : option PyVal) : option PyVal :=
  if opt_truthy o then o else None.

(** A part the body loop of [load_eml] reads as a body of that type: it has
    no [Content-Disposition] field and declares the type. *)
Definition is_candidate (content_type : string) (part : Message) : bool :=
  content_disposition_is_None part &&
  String.eqb (get_content_type part) content_type.

Definition is_body_part (part : Message) : bool :=
  is_candidate "text/html" part || is_candidate "text/plain" part.

(** The contents of those parts, in the order of the walk. *)
Definition candidates (content_type : string) (parts : list Message)
  : list (exn + PyVal) :=
  get_content <$> List.filter (is_candidate content_type) parts.

(** The candidate in the words of the specification: the content of the
    first leaf part of that type whose disposition does not indicate an
    attachment. *)
Definition spec_candidate (content_type : string) (parts : list Message)
  : option (exn + PyVal) :=
  get_content <$>
    head (List.filter
            (fun part =>
               negb (is_multipart part) &&
               negb (Py.contains "attachment"
                       (get_default part "Content-Disposition" "")) &&
               String.eqb (get_content_type part) content_type)
            parts).

(** The placeholder [load_email_file] shows before it does anything else. *)
Definition loading_html : string := "<p>Loading email, please wait...</p>".

(** What an open that fails before any part is read leaves of the viewer
    [v]: the labels and the files are those of [v]; the body is the loading
    placeholder, the attachment map and list are empty, and the path, the
    title and the file list are those of the new path. *)
Definition cleared_by_open (E : Env) (file_path : string) (v v' : Viewer)
  : Prop :=
  labels v' = labels v /\
  files v' = files v /\
  body_text v' = loading_html /\
  attachments v' = ∅ /\
  attachments_list v' = [] /\
  current_email_path v' = Some file_path /\
  window_title v' = "Emlee - " +:+ OsPath.basename file_path /\
  email_files_list v' = list_files E file_path /\
  current_index v' = find_index (list_files E file_path) file_path.

(** The attachment descriptor the second loop of [load_eml] takes from a
    part: the file name and [get_payload(decode=True)], when the
    [Content-Disposition] field mentions an attachment and the name is not
    empty. *)
Definition eml_descriptor (part : Message)
  : option (string * option (list byte)) :=
  if Py.contains "attachment" (get_default part "Content-Disposition" "") then
    match get_filename part with
    | Some filename =>
        if Py.truthy filename then Some (filename, get_payload part) else None
    | None => None
    end
  else None.

Definition descriptors (parts : list Message)
  : list (string * option (list byte)) :=
  omap eml_descriptor parts.

(** The data of the last descriptor bearing a file name. *)
Definition last_data (descs : list (string * option (list byte)))
    (filename : string) : option (option (list byte)) :=
  snd <$> last (List.filter (fun d => String.eqb (fst d) filename) descs).

(** What holds of the attachment map and the files after the descriptors
    [descs] were written under the directory [dir]. *)
Definition materialized (dir : string)
    (descs : list (string * option (list byte))) (v : Viewer) : Prop :=
  forall filename,
    match last_data descs filename with
    | Some data =>
        attachments v !! filename = Some (OsPath.join dir filename) /\
        files v !! OsPath.join dir filename = data /\ is_Some data
    | None => attachments v !! filename = None
    end.

(** The order of the file list: the lowered path on the left is not
    greater than the lowered path on the right. *)
Definition key_ordered (a b : string) : Prop := key_le a b = true.

(** The viewer after the Next button, and after the Previous button. *)
Definition after_next (E : Env) (v : Viewer) : Viewer := snd (load_next E v).
Definition after_previous (E : Env) (v : Viewer) : Viewer :=
  snd (load_previous E v).

(** What makes the buttons cycle: the list has no duplicates, and opening
    any listed file lists the same files again. *)
Definition stable_listing (E : Env) (l : list string) : Prop :=
  NoDup l /\ forall p, In p l -> list_files E p = l.

(** The descriptor the attachment loop of [load_msg] takes from an
    attachment: the long file name, or the short one when the long one is
    missing or empty, and [att.data]. *)
Definition msg_descriptor (att : MsgAttachment)
  : option (string * option (list byte)) :=
  match att_filename att with
  | Some filename =>
      if Py.truthy filename then Some (filename, att_data att) else None
  | None => None
  end.

(** The descriptors of the email a path opens: none when the file cannot be
    read or no reader takes it. *)
Definition open_descriptors (E : Env) (file_path : string)
  : list (string * option (list byte)) :=
  let ext := Py.lower (snd (OsPath.splitext file_path)) in
  if String.eqb ext ".eml" then
    match parse_eml E file_path with
    | inr msg => descriptors (walk msg)
    | inl _ => []
    end
  else if String.eqb ext ".msg" then
    if extract_msg E then
      match read_msg E file_path with
      | inr m => omap msg_descriptor (msg_attachments m)
      | inl _ => []
      end
    else []
  else [].

Definition is_ok {A : Type} (r : exn + A) : bool :=
  match r with inr _ => true | inl _ => false end.

(** What one pass of an attachment loop does to the attachment map, the
    list widget and the files, for a descriptor of name [g]: nothing when
    the write is refused; the file emptied when the data is not bytes; else
    the file written, the map entry set and the item added. The flag tells
    whether the descriptor was recorded. *)
Inductive attach_effect (dir g : string) (data : option (list byte))
    (v v' : Viewer) : bool -> Prop :=
  | effect_refused :
      attachments v' = attachments v ->
      attachments_list v' = attachments_list v ->
      files v' = files v ->
      attach_effect dir g data v v' false
  | effect_emptied :
      data = None ->
      attachments v' = attachments v ->
      attachments_list v' = attachments_list v ->
      files v' = <[OsPath.join dir g := []]> (files v) ->
      attach_effect dir g data v v' false
  | effect_stored b :
      data = Some b ->
      attachments v' = <[g := OsPath.join dir g]> (attachments v) ->
      attachments_list v' = attachments_list v ++ [g] ->
      files v' = <[OsPath.join dir g := b]> (files v) ->
      attach_effect dir g data v v' true.

Definition part_effect (dir : string)
    (d : option (string * option (list byte))) (v v' : Viewer) (ok : bool)
  : Prop :=
  match d with
  | Some (g, data) => attach_effect dir g data v v' ok
  | None =>
      ok = true /\ attachments v' = attachments v /\
      attachments_list v' = attachments_list v /\ files v' = files v
  end.

(** The attachment map, the list widget and the files agree: every entry of
    the map sends a name to its path under [dir], a file was written there,
    and the names in the map are the texts of the items. *)
Definition attachments_consistent (dir : string) (v : Viewer) : Prop :=
  (forall filename path, attachments v !! filename = Some path ->
     path = OsPath.join dir filename /\ is_Some (files v !! path)) /\
  (forall filename,
     filename ∈ attachments_list v <-> is_Some (attachments v !! filename)).

(** What a run over the descriptors [descs] may have changed between [v]
    and [v']. *)
Definition written_from (dir : string)
    (descs : list (string * option (list byte))) (v v' : Viewer) : Prop :=
  (forall filename, is_Some (attachments v' !! filename) ->
     is_Some (attachments v !! filename) \/ filename ∈ (fst <$> descs)) /\
  (forall path,
     (forall filename, filename ∈ (fst <$> descs) ->
        path <> OsPath.join dir filename) ->
     files v' !! path = files v !! path) /\
  (forall path, is_Some (files v !! path) -> is_Some (files v' !! path)) /\
  (attachments_consistent dir v -> attachments_consistent dir v').

(** Whether a character occurs in a string. *)
Fixpoint has_char (c : ascii) (s : string) : bool :=
  match s with
  | EmptyString => false
  | String d r => Ascii.eqb d c || has_char c r
  end.

(** A text without the characters that open or close a tag or quote an
    attribute. *)
Fixpoint no_markup (s : string) : bool :=
  match s with
  | EmptyString => true
  | String c r =>
      negb (Ascii.eqb c "<" || Ascii.eqb c ">" || Ascii.eqb c Py.dquote ||
            Ascii.eqb c "'") && no_markup r
  end.

(** [p.split('/')] *)
Fixpoint components (p : string) : list string :=
  match p with
  | EmptyString => [EmptyString]
  | String c r =>
      if Ascii.eqb c "/" then EmptyString :: components r
      else match components r with
           | x :: xs => String c x :: xs
           | [] => [String c EmptyString]
           end
  end.

(** The components a path comes down to, as [os.path.normpath] walks them:
    empty and [.] components are dropped and [..] takes back the component
    before it; [stack] holds the components kept so far, last one first. *)
Fixpoint resolve_components (absolute : bool) (stack comps : list string)
  : list string :=
  match comps with
  | [] => rev stack
  | comp :: rest =>
      if String.eqb comp "" || String.eqb comp "." then
        resolve_components absolute stack rest
      else if String.eqb comp ".." then
        match stack with
        | top :: below =>
            if String.eqb top ".."
            then resolve_components absolute (comp :: stack) rest
            else resolve_components absolute below rest
        | [] =>
            if absolute then resolve_components absolute [] rest
            else resolve_components absolute [comp] rest
        end
      else resolve_components absolute (comp :: stack) rest
  end.

(** The file a path names, spelled in one way: whether the path starts at
    the root, and its components resolved (symbolic links aside).  Two paths
    with the same resolution are two spellings of one file. *)
Definition resolve (path : string) : bool * list string :=
  (Py.startswith path "/",
   resolve_components (Py.startswith path "/") [] (components path)).

(** No two different names of the list are written to one file under the
    directory. *)
Definition distinct_files (dir : string) (names : list string) : Prop :=
  forall f g, In f names -> In g names ->
    resolve (OsPath.join dir f) = resolve (OsPath.join dir g) -> f = g.


(** [glob.glob(pattern)] on POSIX, for a pattern [directory/*suffix] whose
    directory holds no wildcard, over the directory listing [listdir]: the
    entries whose names do not start with a dot and end with the suffix,
    compared with case, each joined to the directory.  The viewer uses no
    other pattern. *)
Definition dir_glob (listdir : string -> list string) (pattern : string)
  : list string :=
  let dirname := OsPath.dirname pattern in
  match OsPath.basename pattern with
  | String "*" suffix =>
      OsPath.join dirname <$>
        List.filter
          (fun name => negb (Py.startswith name ".") && endswith name suffix)
          (listdir dirname)
  | _ => []
  end.


(** ** Sample messages and environments *)

Definition leaf (headers : list (string * string)) (content_type : string)
    (filename : option string) (content : exn + PyVal) (payload : list byte)
  : Message :=
  mkMessage headers content_type filename content (Some payload) None.

Definition text_part (content_type text : string) : Message :=
  leaf [("Content-Type", content_type)] content_type None (inr (PyStr text))
       (String.list_byte_of_string text).

Definition attachment_part (content_type filename : string) (data : list byte)
  : Message :=
  leaf [("Content-Type", content_type);
        ("Content-Disposition", "attachment; filename=" +:+ filename)]
       content_type (Some filename) (inr (PyBytes data)) data.

Definition multipart (subtype : string) (parts : list Message) : Message :=
  mkMessage [("Content-Type", subtype)] subtype None (inl KeyError) None
            (Some parts).

(** An environment where every path parses to [m], the temporary directory
    is [/tmp], the directory listing is [listing] and every write succeeds. *)
Definition env_of (m : Message) (listing : string -> list string) : Env :=
  mkEnv true listing "/tmp" (fun _ => inr m) (fun _ => inl OSError)
        String.string_of_list_byte (fun _ _ _ => true).

Definition no_files : string -> list string := fun _ => [].

(** A [multipart/alternative] message whose HTML part is empty. *)
Definition empty_html_mail : Message :=
  multipart "multipart/alternative"
    [text_part "text/plain" "hi"; text_part "text/html" ""].

Definition inline_part (content_type text : string) : Message :=
  leaf [("Content-Type", content_type); ("Content-Disposition", "inline")]
       content_type None (inr (PyStr text)) (String.list_byte_of_string text).

(** Three HTML parts, the last one with an inline disposition. *)
Definition three_html_mail : Message :=
  multipart "multipart/mixed"
    [text_part "text/html" "<p>one</p>"; text_part "text/html" "<p>two</p>";
     inline_part "text/html" "<p>three</p>"].

(** An HTML part in a character set Python does not know, whose
    [get_content()] raises [LookupError], followed by an attachment. *)
Definition bad_charset_mail : Message :=
  multipart "multipart/mixed"
    [leaf [("Content-Type", "text/html; charset=x-unknown")] "text/html" None
          (inl LookupError) (String.list_byte_of_string "<p>hi</p>");
     attachment_part "application/pdf" "report.pdf"
                     (String.list_byte_of_string "%PDF")].


(** A message with a text body and one attachment. *)
Definition report_mail : Message :=
  mkMessage [("From", "ann@example.org"); ("Subject", "Report");
             ("Content-Type", "multipart/mixed")]
            "multipart/mixed" None (inl KeyError) None
            (Some [text_part "text/plain" "hello";
                   attachment_part "application/pdf" "report.pdf"
                                   (String.list_byte_of_string "%PDF")]).

(** The viewer after [report_mail] was opened, and the run of an open of a
    text file after it. *)
Definition report_loaded : (exn + unit) * Viewer :=
  load_email_file (env_of report_mail no_files) "/d/m.eml" (init_viewer ∅).

Definition run_unsupported_after_report : (exn + unit) * Viewer :=
  load_email_file (env_of report_mail no_files) "/d/notes.txt"
                  (snd report_loaded).

(** A message and a [.msg] file with the same two attachments, in an
    environment that refuses to write [/tmp/a.bin]. *)
Definition two_attachments_mail : Message :=
  multipart "multipart/mixed"
    [text_part "text/plain" "see attached";
     attachment_part "application/octet-stream" "a.bin"
                     (String.list_byte_of_string "AAAA");
     attachment_part "application/octet-stream" "b.bin"
                     (String.list_byte_of_string "BB")].

Definition two_attachments_msg : MsgFile :=
  mkMsgFile (Some "ann@example.org") None None None None (Some "Files") None
            (Some (PyStr "see attached"))
            [mkMsgAttachment (Some "a.bin") None
                             (Some (String.list_byte_of_string "AAAA"));
             mkMsgAttachment (Some "b.bin") (Some "B~1.BIN")
                             (Some (String.list_byte_of_string "BB"))].

Definition refusing_env : Env :=
  mkEnv true no_files "/tmp" (fun _ => inr two_attachments_mail)
        (fun _ => inr two_attachments_msg) String.string_of_list_byte
        (fun _ path _ => negb (String.eqb path "/tmp/a.bin")).

Definition run_eml_refused : (exn + unit) * Viewer :=
  load_eml refusing_env "/d/m.eml" (init_viewer ∅).

Definition run_msg_refused : (exn + unit) * Viewer :=
  load_msg refusing_env "/d/m.msg" (init_viewer ∅).

(** A message whose attachment carries an absolute file name. *)
Definition escaping_mail : Message :=
  multipart "multipart/mixed"
    [text_part "text/plain" "hi";
     attachment_part "text/plain" "/home/user/.profile"
                     (String.list_byte_of_string "evil")].

Definition run_escaping : (exn + unit) * Viewer :=
  load_eml (env_of escaping_mail no_files) "/d/m.eml" (init_viewer ∅).

(** Two messages that are not multipart and whose only part is an
    attachment: a PDF, whose [get_content()] is a [bytes], and a text file. *)
Definition pdf_only_mail : Message :=
  attachment_part "application/pdf" "report.pdf"
                  (String.list_byte_of_string "%PDF").

Definition notes_only_mail : Message :=
  leaf [("Content-Type", "text/plain");
        ("Content-Disposition", "attachment; filename=notes.txt")]
       "text/plain" (Some "notes.txt") (inr (PyStr "a<b"))
       (String.list_byte_of_string "a<b").

Definition run_pdf_only : (exn + unit) * Viewer :=
  load_eml (env_of pdf_only_mail no_files) "/d/m.eml" (init_viewer ∅).

Definition run_notes_only : (exn + unit) * Viewer :=
  load_eml (env_of notes_only_mail no_files) "/d/m.eml" (init_viewer ∅).

(** A message with two attachments whose names differ and whose paths are
    the same. *)
Definition aliasing_mail : Message :=
  multipart "multipart/mixed"
    [text_part "text/plain" "hi";
     attachment_part "text/plain" "x.txt" (String.list_byte_of_string "first");
     attachment_part "text/plain" "/tmp/x.txt"
                     (String.list_byte_of_string "second")].

Definition run_aliasing : (exn + unit) * Viewer :=
  load_email_file (env_of aliasing_mail no_files) "/d/m.eml" (init_viewer ∅).

(** A directory [/d] that holds [a.eml], [B.eml] and [c.msg], listed in
    another order than the sorted one. *)
Definition listing_d : string -> list string := fun pattern =>
  if String.eqb pattern "/d/*.eml" then ["/d/B.eml"; "/d/a.eml"]
  else if String.eqb pattern "/d/*.msg" then ["/d/c.msg"]
  else [].

Definition nav_env : Env := env_of report_mail listing_d.

Definition opened_B : Viewer :=
  snd (load_email_file nav_env "/d/B.eml" (init_viewer ∅)).

Definition run_bad_charset_open : (exn + unit) * Viewer :=
  load_email_file (env_of bad_charset_mail no_files) "/d/m.eml"
                  (init_viewer ∅).

(** The viewer after a path of [/d] was opened that the listing does not
    hold in that spelling. *)
Definition opened_elsewhere : Viewer :=
  snd (load_email_file nav_env "/d//B.eml" (init_viewer ∅)).

(** A directory [/d] that holds [a.eml], a hidden [.h.eml] and [UP.EML]. *)
Definition listdir_hidden : string -> list string := fun directory =>
  if String.eqb directory "/d" then ["a.eml"; ".h.eml"; "UP.EML"] else [].



(** The directory [/d] of [nav_env], as a listing. *)
Definition listdir_d : string -> list string := fun directory =>
  if String.eqb directory "/d" then ["c.msg"; "B.eml"; "a.eml"] else [].


(** A message with two attachments whose names differ by a [./]. *)
Definition dotted_mail : Message :=
  multipart "multipart/mixed"
    [text_part "text/plain" "hi";
     attachment_part "text/plain" "x.txt" (String.list_byte_of_string "first");
     attachment_part "text/plain" "./x.txt"
                     (String.list_byte_of_string "second")].

Definition run_two_attachments : (exn + unit) * Viewer :=
  load_email_file (env_of two_attachments_mail no_files) "/d/m.eml"
                  (init_viewer ∅).

(** ** Properties *)

(** Sample evaluations of the library functions. *)

Example lower_ex : Py.lower "/d/B.EML" = "/d/b.eml".
Proof. reflexivity. Qed.

Example escape_ex : Py.escape "a<b & 'c'" = "a&lt;b &amp; &#x27;c&#x27;".
Proof. reflexivity. Qed.

Example dirname_ex :
  OsPath.dirname "/d/e/a.eml" = "/d/e" /\ OsPath.dirname "/a.eml" = "/" /\
  OsPath.dirname "a.eml" = "" /\ OsPath.dirname "/d//a.eml" = "/d" /\
  OsPath.dirname "//a" = "//".
Proof. repeat split. Qed.

Example join_ex :
  OsPath.join "/tmp" "r.pdf" = "/tmp/r.pdf" /\ OsPath.join "/tmp/" "r.pdf" = "/tmp/r.pdf" /\
  OsPath.join "" "*.eml" = "*.eml" /\ OsPath.join "/tmp" "/etc/x" = "/etc/x" /\
  OsPath.join "/tmp" "../x" = "/tmp/../x".
Proof. repeat split. Qed.

Example splitext_ex :
  OsPath.splitext "/d/a.EML" = ("/d/a", ".EML") /\ OsPath.splitext "/d/.eml" = ("/d/.eml", "") /\
  OsPath.splitext "/d.x/a" = ("/d.x/a", "") /\ OsPath.splitext "a.tar.gz" = ("a.tar", ".gz") /\
  OsPath.splitext "/d/..eml" = ("/d/..eml", "") /\ OsPath.splitext "/d/.a.eml" = ("/d/.a", ".eml").
Proof. repeat split. Qed.

Example resolve_ex :
  resolve "/tmp/./x.txt" = resolve "/tmp/x.txt" /\
  resolve "/tmp/../x" = resolve "/x" /\
  resolve "/tmp//a/../x" = (true, ["tmp"; "x"]) /\
  resolve "../a/./b" = (false, [".."; "a"; "b"]) /\
  resolve "/../x" = (true, ["x"]) /\
  resolve "/tmp/x.txt" <> resolve "/tmp/X.txt".
Proof. repeat split. discriminate. Qed.

Example dir_glob_ex :
  dir_glob listdir_hidden "/d/*.eml" = ["/d/a.eml"] /\
  dir_glob listdir_d "/d/*.eml" = ["/d/B.eml"; "/d/a.eml"] /\
  dir_glob listdir_d "/d/*.msg" = ["/d/c.msg"].
Proof. repeat split. Qed.

Example sorted_ex :
  sorted ["/d/c.msg"; "/d/B.eml"; "/d/a.eml"; "/d/A.eml"]
  = ["/d/a.eml"; "/d/A.eml"; "/d/B.eml"; "/d/c.msg"].
Proof. reflexivity. Qed.

Example getitem_ex :
  getitem ["a"; "b"; "c"] 2 = inr "c" /\ getitem ["a"; "b"; "c"] (-1) = inr "c" /\
  getitem ["a"; "b"; "c"] 3 = inl IndexError.
Proof. repeat split. Qed.

Example walk_ex :
  get_content_type <$> walk report_mail
  = ["multipart/mixed"; "text/plain"; "application/pdf"].
Proof. reflexivity. Qed.


Section Frame.

Variable E : Env.

Lemma same_display_refl v : same_display v v.
Proof. by repeat split. Qed.

Lemma same_display_trans v1 v2 v3 :
  same_display v1 v2 -> same_display v2 v3 -> same_display v1 v3.
Proof.
  unfold same_display. intros (?&?&?&?&?&?&?) (?&?&?&?&?&?&?).
  repeat split; congruence.
Qed.

Lemma write_file_display path data v :
  same_display v (snd (write_file E path data v)).
Proof.
  unfold write_file. destruct data; case (can_write E _ _ _); simpl;
    by repeat split.
Qed.

Lemma eml_attachment_display part v :
  same_display v (snd (eml_attachment E part v)).
Proof.
  unfold eml_attachment.
  destruct (Py.contains _ _); [|apply same_display_refl].
  destruct (get_filename part) as [filename|]; [|apply same_display_refl].
  destruct (Py.truthy filename); [|apply same_display_refl].
  unfold mbind, M_bind.
  pose proof (write_file_display (OsPath.join (gettempdir E) filename)
                (get_payload part) v) as Hw.
  destruct (write_file E _ _ v) as [[e|[]] v1]; simpl in *; [done|].
  eapply same_display_trans; [exact Hw|]. by repeat split.
Qed.

Lemma msg_attachment_display att v :
  same_display v (snd (msg_attachment E att v)).
Proof.
  unfold msg_attachment.
  destruct (att_filename att) as [filename|]; [|apply same_display_refl].
  destruct (Py.truthy filename); [|apply same_display_refl].
  unfold try_except, mbind, M_bind.
  pose proof (write_file_display (OsPath.join (gettempdir E) filename)
                (att_data att) v) as Hw.
  destruct (write_file E _ _ v) as [[e|[]] v1]; simpl in *;
    (eapply same_display_trans; [exact Hw|]); by repeat split.
Qed.

Lemma for_each_display {A} (body : A -> M unit) (l : list A) :
  (forall x v, same_display v (snd (body x v))) ->
  forall v, same_display v (snd (for_each l body v)).
Proof.
  intros Hbody. induction l as [|x r IH]; intros v; simpl.
  - apply same_display_refl.
  - unfold mbind, M_bind. pose proof (Hbody x v) as Hx.
    destruct (body x v) as [[e|[]] v1]; simpl in *; [done|].
    eapply same_display_trans; [exact Hx|apply IH].
Qed.

End Frame.

Section BodySelection.

Variable E : Env.

Lemma load_eml_body_text file_path v msg body :
  parse_eml E file_path = inr msg ->
  eml_body msg = inr (PyStr body) ->
  body_text (snd (load_eml E file_path v)) = body.
Proof.
  intros Hparse Hbody. unfold load_eml, mbind, M_bind, lift.
  rewrite Hparse, Hbody. simpl.
  match goal with |- body_text (snd (for_each ?l ?f ?v0)) = _ =>
    pose proof (for_each_display f l (eml_attachment_display E) v0) as Hd
  end.
  destruct Hd as (_&_&_&_&_&Hb&_). by rewrite Hb.
Qed.

Lemma load_msg_body_text file_path v m :
  read_msg E file_path = inr m ->
  body_text (snd (load_msg E file_path v)) = msg_file_body E m.
Proof.
  intros Hread. unfold load_msg, mbind, M_bind, lift. rewrite Hread. simpl.
  match goal with |- body_text (snd (for_each ?l ?f ?v0)) = _ =>
    pose proof (for_each_display f l (msg_attachment_display E) v0) as Hd
  end.
  destruct Hd as (_&_&_&_&_&Hb&_). by rewrite Hb.
Qed.

Lemma select_body_str (h p : option string) :
  select_body (PyStr <$> h) (PyStr <$> p)
  = inr (PyStr (fst (spec_body (nonempty h) (nonempty p)))).
Proof.
  destruct h as [[|c h]|], p as [[|d p]|]; reflexivity.
Qed.

Lemma msg_file_body_spec (m : MsgFile) :
  msg_file_body E m
  = fst (spec_body (as_text (decode_utf8 E) <$> present (htmlBody m))
                   (as_text (decode_utf8 E) <$> present (msg_body m))).
Proof.
  unfold msg_file_body, present.
  destruct (htmlBody m) as [h|]; simpl.
  - destruct (val_truthy h); [done|].
    destruct (msg_body m) as [b|]; simpl; [|done]. by destruct (val_truthy b).
  - destruct (msg_body m) as [b|]; simpl; [|done]. by destruct (val_truthy b).
Qed.

(** The body of a message that is not multipart, when its content is text:
    the content itself for [text/html], else the content escaped and wrapped,
    whatever the disposition of the part. *)
Lemma single_text_body (msg : Message) (text : string) :
  is_multipart msg = false -> get_content msg = inr (PyStr text) ->
  eml_body msg
  = inr (PyStr (if String.eqb (get_content_type msg) "text/html"
                then text else pre text)).
Proof.
  intros Hsingle Hc. unfold eml_body, single_body. rewrite Hsingle, Hc.
  by destruct (String.eqb _ _).
Qed.

End BodySelection.

(** C1 (amended).  Body-selection policy: the body shown is chosen in the
    order HTML candidate verbatim, plain candidate escaped and wrapped in
    [<pre>], empty string, where a candidate that is empty counts as absent:
    so for a multipart [.eml] message with text candidates, and so for a
    [.msg] file, whose candidates are decoded when they are bytes.  A
    message that is not multipart and whose content is text is shown as it
    is when it declares [text/html], and escaped and wrapped otherwise. *)
Theorem body_selection_policy (E : Env) (file_path : string) (v : Viewer) :
  (forall msg h p,
     parse_eml E file_path = inr msg -> is_multipart msg = true ->
     scan_bodies (walk msg) None None = inr (PyStr <$> h, PyStr <$> p) ->
     body_text (snd (load_eml E file_path v))
     = fst (spec_body (nonempty h) (nonempty p))) /\
  (forall m, read_msg E file_path = inr m ->
     body_text (snd (load_msg E file_path v))
     = fst (spec_body (as_text (decode_utf8 E) <$> present (htmlBody m))
                      (as_text (decode_utf8 E) <$> present (msg_body m)))) /\
  (forall msg text,
     parse_eml E file_path = inr msg -> is_multipart msg = false ->
     get_content msg = inr (PyStr text) ->
     body_text (snd (load_eml E file_path v))
     = if String.eqb (get_content_type msg) "text/html" then text
       else pre text).
Proof.
  split; [|split].
  - intros msg h p Hparse Hmulti Hscan.
    apply load_eml_body_text with (msg := msg); [done|].
    unfold eml_body. rewrite Hmulti, Hscan. apply select_body_str.
  - intros m Hread. rewrite (load_msg_body_text E _ _ m Hread).
    apply msg_file_body_spec.
  - intros msg text Hparse Hsingle Hc.
    apply load_eml_body_text with (msg := msg); [done|].
    by apply single_text_body.
Qed.

Lemma body_selection_policy_witness :
  body_text (snd (load_eml (env_of empty_html_mail no_files) "/d/m.eml"
                           (init_viewer ∅)))
  = fst (spec_body (nonempty (Some "")) (nonempty (Some "hi"))).
Proof.
  apply (proj1 (body_selection_policy (env_of empty_html_mail no_files)
                  "/d/m.eml" (init_viewer ∅))
               empty_html_mail (Some "") (Some "hi")); reflexivity.
Defined.

(** C1, as stated, fails: the HTML candidate of [empty_html_mail] exists (it
    is the empty string), yet the body shown is the escaped plain text. *)
Lemma body_selection_counterexample :
  scan_bodies (walk empty_html_mail) None None
  = inr (Some (PyStr ""), Some (PyStr "hi")) /\
  body_text (snd (load_eml (env_of empty_html_mail no_files) "/d/m.eml"
                           (init_viewer ∅))) = "<pre>hi</pre>" /\
  body_text (snd (load_eml (env_of empty_html_mail no_files) "/d/m.eml"
                           (init_viewer ∅)))
  <> fst (spec_body (Some "") (Some "hi")).
Proof. repeat split. vm_compute. discriminate. Qed.

Section BodyCandidates.

Lemma is_candidate_plain_not_html part :
  String.eqb (get_content_type part) "text/html" = true ->
  is_candidate "text/plain" part = false.
Proof.
  intros H%String.eqb_eq. unfold is_candidate. rewrite H.
  apply andb_false_r.
Qed.

Lemma candidates_cons_in ct part rest :
  is_candidate ct part = true ->
  candidates ct (part :: rest) = get_content part :: candidates ct rest.
Proof. intros H. unfold candidates. simpl. by rewrite H. Qed.

Lemma candidates_cons_out ct part rest :
  is_candidate ct part = false ->
  candidates ct (part :: rest) = candidates ct rest.
Proof. intros H. unfold candidates. simpl. by rewrite H. Qed.

(** The loop keeps, for each type, the content of the last matching part. *)
Lemma scan_bodies_last parts : forall h0 p0 h p,
  scan_bodies parts h0 p0 = inr (h, p) ->
  inr <$> h = match last (candidates "text/html" parts) with
              | Some x => Some x | None => inr <$> h0 end /\
  inr <$> p = match last (candidates "text/plain" parts) with
              | Some x => Some x | None => inr <$> p0 end.
Proof.
  induction parts as [|part rest IH]; intros h0 p0 h p Hscan.
  - simpl in Hscan. by inversion Hscan.
  - simpl in Hscan. unfold is_candidate in *.
    destruct (content_disposition_is_None part) eqn:Hdisp.
    + destruct (String.eqb (get_content_type part) "text/html") eqn:Hhtml.
      * destruct (get_content part) as [e|c] eqn:Hc; [done|].
        apply IH in Hscan as [Hh Hp].
        rewrite candidates_cons_in, last_cons, Hc
          by (unfold is_candidate; by rewrite Hdisp, Hhtml).
        rewrite candidates_cons_out
          by (by apply is_candidate_plain_not_html).
        split; [|done]. by destruct (last (candidates "text/html" rest)).
      * rewrite (candidates_cons_out "text/html")
          by (unfold is_candidate; by rewrite Hdisp, Hhtml).
        destruct (String.eqb (get_content_type part) "text/plain") eqn:Hplain.
        -- destruct (get_content part) as [e|c] eqn:Hc; [done|].
           apply IH in Hscan as [Hh Hp].
           rewrite candidates_cons_in, last_cons, Hc
             by (unfold is_candidate; by rewrite Hdisp, Hplain).
           split; [done|]. by destruct (last (candidates "text/plain" rest)).
        -- rewrite candidates_cons_out
             by (unfold is_candidate; by rewrite Hdisp, Hplain).
           by apply IH.
    + rewrite !candidates_cons_out
        by (unfold is_candidate; by rewrite Hdisp).
      by apply IH.
Qed.

(** The loop returns when the content of every body part can be fetched. *)
Lemma scan_bodies_returns parts : forall h0 p0,
  (forall part, In part parts -> is_body_part part = true ->
     exists c, get_content part = inr c) ->
  exists h p, scan_bodies parts h0 p0 = inr (h, p).
Proof.
  induction parts as [|part rest IH]; intros h0 p0 Hok; simpl; [by eauto|].
  assert (Hrest : forall q, In q rest -> is_body_part q = true ->
            exists c, get_content q = inr c)
    by (intros q Hq; apply Hok; by right).
  pose proof (Hok part (or_introl eq_refl)) as Hpart.
  unfold is_body_part, is_candidate in Hpart.
  destruct (content_disposition_is_None part); [|by apply IH].
  destruct (String.eqb (get_content_type part) "text/html").
  - destruct Hpart as [c ->]; [done|]. by apply IH.
  - destruct (String.eqb (get_content_type part) "text/plain"); [|by apply IH].
    destruct Hpart as [c ->]; [done|]. by apply IH.
Qed.


End BodyCandidates.

(** C3 (amended).  Body-candidate capture: for a multipart message whose
    body parts can all be decoded, the loop over the walk returns, and among
    the parts that have no [Content-Disposition] field at all and declare
    [text/html], the HTML candidate is the content of the last one (the last
    occurrence wins); likewise the plain candidate is the last [text/plain]
    one.  The body is selected from these two. *)
Theorem body_candidates_last_wins (msg : Message) :
  is_multipart msg = true ->
  (forall part, In part (walk msg) -> is_body_part part = true ->
     exists c, get_content part = inr c) ->
  exists h p,
    scan_bodies (walk msg) None None = inr (h, p) /\
    inr <$> h = last (candidates "text/html" (walk msg)) /\
    inr <$> p = last (candidates "text/plain" (walk msg)) /\
    eml_body msg = select_body h p.
Proof.
  intros Hmulti Hok.
  destruct (scan_bodies_returns (walk msg) None None Hok) as (h & p & Hscan).
  exists h, p. split; [done|].
  destruct (scan_bodies_last _ _ _ _ _ Hscan) as [Hh Hp].
  repeat split.
  - rewrite Hh. by destruct (last (candidates "text/html" (walk msg))).
  - rewrite Hp. by destruct (last (candidates "text/plain" (walk msg))).
  - unfold eml_body. by rewrite Hmulti, Hscan.
Qed.

Lemma body_candidates_last_wins_witness :
  exists h p,
    scan_bodies (walk three_html_mail) None None = inr (h, p) /\
    inr <$> h = last (candidates "text/html" (walk three_html_mail)) /\
    inr <$> p = last (candidates "text/plain" (walk three_html_mail)) /\
    eml_body three_html_mail = select_body h p.
Proof.
  apply (body_candidates_last_wins three_html_mail); [reflexivity|].
  intros part Hin Hbody. simpl in Hin.
  destruct Hin as [<-|[<-|[<-|[<-|[]]]]]; [discriminate Hbody|by eexists..].
Defined.

(** C3, as stated, fails: of the three HTML parts of [three_html_mail] the
    code keeps the second, which is neither the first part without an
    attachment disposition nor the last such part. *)
Lemma body_candidates_counterexample :
  scan_bodies (walk three_html_mail) None None
  = inr (Some (PyStr "<p>two</p>"), None) /\
  spec_candidate "text/html" (walk three_html_mail)
  = Some (inr (PyStr "<p>one</p>")) /\
  (inr <$> Some (PyStr "<p>two</p>") : option (exn + PyVal))
  <> spec_candidate "text/html" (walk three_html_mail).
Proof. repeat split. vm_compute. discriminate. Qed.

Section Failures.

Variable E : Env.


Lemma load_eml_unreadable file_path v e :
  parse_eml E file_path = inl e -> load_eml E file_path v = (inl e, v).
Proof.
  intros Hparse. unfold load_eml, mbind, M_bind, lift. by rewrite Hparse.
Qed.


End Failures.




(** C2 (amended).  An open that ends in the unsupported-format warning, in
    the missing-[.msg]-support warning, or in a failure to read the [.eml]
    file keeps the header labels and the files of the email loaded before;
    its body is replaced by the loading placeholder, its attachment map and
    list are emptied, and the path, the title and the navigation state are
    those of the new path. *)
Theorem failed_open_overwrites (E : Env) (file_path : string) (v : Viewer) :
  let ext := Py.lower (snd (OsPath.splitext file_path)) in
  let r := load_email_file E file_path v in
  (ext <> ".eml" -> ext <> ".msg" ->
     fst r = inr tt /\ cleared_by_open E file_path v (snd r) /\
     warnings (snd r) = warnings v ++ ["Unsupported file format."]) /\
  (ext = ".msg" -> extract_msg E = false ->
     fst r = inr tt /\ cleared_by_open E file_path v (snd r) /\
     warnings (snd r) = warnings v ++
       ["MSG file support not available. Please install extract_msg module."]) /\
  (forall e, ext = ".eml" -> parse_eml E file_path = inl e ->
     fst r = inl e /\ cleared_by_open E file_path v (snd r) /\
     warnings (snd r) = warnings v).
Proof.
  intros ext r. subst r. unfold load_email_file. fold ext.
  split; [|split].
  - intros Heml%String.eqb_neq Hmsg%String.eqb_neq.
    unfold mbind, M_bind, modify. simpl. rewrite Heml, Hmsg.
    by repeat split.
  - intros Hmsg Hno. unfold mbind, M_bind, modify. simpl.
    rewrite Hmsg, Hno. by repeat split.
  - intros e Heml Hparse. unfold mbind, M_bind, modify. simpl.
    rewrite Heml. simpl. rewrite (load_eml_unreadable E _ _ e Hparse).
    by repeat split.
Qed.

Lemma failed_open_overwrites_witness :
  fst run_unsupported_after_report = inr tt /\
  cleared_by_open (env_of report_mail no_files) "/d/notes.txt"
                  (snd report_loaded) (snd run_unsupported_after_report) /\
  warnings (snd run_unsupported_after_report)
  = warnings (snd report_loaded) ++ ["Unsupported file format."].
Proof.
  apply (proj1 (failed_open_overwrites (env_of report_mail no_files)
                  "/d/notes.txt" (snd report_loaded))); by vm_compute.
Defined.

(** C2, as stated, fails: after [report_mail] was loaded, an open that ends
    in the unsupported-format warning leaves the labels of [report_mail] on
    display while its body and its attachment map are gone. *)
Lemma failed_open_counterexample :
  fst report_loaded = inr tt /\
  body_text (snd report_loaded) = "<pre>hello</pre>" /\
  attachments (snd report_loaded) = {[ "report.pdf" := "/tmp/report.pdf" ]} /\
  warnings (snd run_unsupported_after_report) = ["Unsupported file format."] /\
  label_subject (labels (snd run_unsupported_after_report)) = "Subject: Report" /\
  body_text (snd run_unsupported_after_report) <> body_text (snd report_loaded) /\
  attachments (snd run_unsupported_after_report)
  <> attachments (snd report_loaded).
Proof.
  repeat split; by vm_compute.
Qed.

Section Attachments.

Variable E : Env.

(** The attachment loop of [load_msg] absorbs every failure of a write. *)
Lemma msg_attachment_returns att v : fst (msg_attachment E att v) = inr tt.
Proof.
  unfold msg_attachment.
  destruct (att_filename att) as [filename|]; [|done].
  destruct (Py.truthy filename); [|done].
  unfold try_except, mbind, M_bind.
  by destruct (write_file E _ _ v) as [[e|[]] v1].
Qed.

Lemma msg_attachments_return atts : forall v,
  fst (for_each atts (msg_attachment E) v) = inr tt.
Proof.
  induction atts as [|att rest IH]; intros v; simpl; [done|].
  unfold mbind, M_bind. pose proof (msg_attachment_returns att v) as Hatt.
  destruct (msg_attachment E att v) as [[e|[]] v1]; [done|apply IH].
Qed.

(** The attachment loop of [load_eml] stops at the first failure. *)
Lemma eml_attachments_stop part rest v e v' :
  eml_attachment E part v = (inl e, v') ->
  for_each (part :: rest) (eml_attachment E) v = (inl e, v').
Proof. intros H. simpl. unfold mbind, M_bind. by rewrite H. Qed.

(** An absolute file name is the path written: the temporary directory
    plays no part in it. *)
Lemma join_absolute (dir filename : string) :
  Py.startswith filename "/" = true -> OsPath.join dir filename = filename.
Proof. intros H. unfold OsPath.join. by rewrite H. Qed.

End Attachments.

(** C5.  In [refusing_env] the write of [a.bin] fails.  [load_eml] raises at
    that attachment: [b.bin] is neither written nor recorded and the open
    fails.  [load_msg], on the same two attachments, prints the error and
    goes on: [b.bin] is written and recorded and the open succeeds. *)
Theorem eml_write_failure_aborts :
  fst run_eml_refused = inl OSError /\
  attachments (snd run_eml_refused) = ∅ /\
  files (snd run_eml_refused) !! "/tmp/b.bin" = None /\
  fst run_msg_refused = inr tt /\
  attachments (snd run_msg_refused) = {[ "b.bin" := "/tmp/b.bin" ]} /\
  files (snd run_msg_refused) !! "/tmp/b.bin"
  = Some (String.list_byte_of_string "BB") /\
  stdout (snd run_msg_refused) = ["Error saving attachment a.bin: OSError"].
Proof. repeat split; by vm_compute. Qed.

(** C6.  With the temporary directory [/tmp], the attachment of
    [escaping_mail] named [/home/user/.profile] is written to that very
    path, which does not lie under [/tmp/]; the open succeeds and the
    attachment map points there. *)
Theorem attachment_written_outside_tmp :
  gettempdir (env_of escaping_mail no_files) = "/tmp" /\
  fst run_escaping = inr tt /\
  attachments (snd run_escaping) !! "/home/user/.profile"
  = Some "/home/user/.profile" /\
  files (snd run_escaping) !! "/home/user/.profile"
  = Some (String.list_byte_of_string "evil") /\
  Py.startswith "/home/user/.profile" "/tmp/" = false.
Proof. repeat split; by vm_compute. Qed.

(** C10.  A message that is not multipart and whose only part is a text
    attachment is shown as the body and written as an attachment; when the
    only part is a PDF attachment, [html.escape] is given a [bytes] and the
    open raises [TypeError]: nothing is shown and nothing is written. *)
Theorem sole_binary_part_raises :
  is_multipart notes_only_mail = false /\
  fst run_notes_only = inr tt /\
  body_text (snd run_notes_only) = "<pre>a&lt;b</pre>" /\
  attachments (snd run_notes_only) = {[ "notes.txt" := "/tmp/notes.txt" ]} /\
  is_multipart pdf_only_mail = false /\
  fst run_pdf_only = inl TypeError /\
  body_text (snd run_pdf_only) = "" /\
  attachments (snd run_pdf_only) = ∅ /\
  files (snd run_pdf_only) = ∅.
Proof. repeat split; by vm_compute. Qed.

Section RoundTrip.

Variable E : Env.

(** Names that are written to different files have different paths. *)
Lemma distinct_files_join (dir : string) (names : list string) (f g : string) :
  distinct_files dir names -> In f names -> In g names ->
  OsPath.join dir f = OsPath.join dir g -> f = g.
Proof. intros Hd Hf Hg Hjoin. apply Hd; [done..|]. by rewrite Hjoin. Qed.

Lemma distinct_files_app_l (dir : string) (l1 l2 : list string) :
  distinct_files dir (l1 ++ l2) -> distinct_files dir l1.
Proof.
  intros Hd f g Hf Hg. apply Hd; apply in_or_app; by left.
Qed.

Lemma last_data_snoc descs g d f :
  last_data (descs ++ [(g, d)]) f
  = if String.eqb g f then Some d else last_data descs f.
Proof.
  unfold last_data. rewrite List.filter_app. simpl.
  destruct (String.eqb g f).
  - by rewrite last_snoc.
  - by rewrite app_nil_r.
Qed.

Lemma last_data_Some_in descs f d :
  last_data descs f = Some d -> In f (fst <$> descs).
Proof.
  unfold last_data. intros H.
  destruct (last _) as [[g d']|] eqn:Hlast; [|done].
  apply last_Some_elem_of, list_elem_of_In, List.filter_In in Hlast
    as [Hin Heq].
  simpl in Heq. apply String.eqb_eq in Heq. subst f.
  apply in_map_iff. by exists (g, d').
Qed.

Lemma eml_attachment_descriptor part :
  eml_attachment E part
  = match eml_descriptor part with
    | Some (filename, data) =>
        write_file E (OsPath.join (gettempdir E) filename) data ;;
        add_attachment filename (OsPath.join (gettempdir E) filename)
    | None => mret tt
    end.
Proof.
  unfold eml_attachment, eml_descriptor.
  destruct (Py.contains _ _); [|done].
  destruct (get_filename part) as [filename|]; [|done].
  by destruct (Py.truthy filename).
Qed.

(** One more descriptor written and recorded. *)
Lemma materialized_step descs g d v v' :
  distinct_files (gettempdir E) (fst <$> descs ++ [(g, d)]) ->
  materialized (gettempdir E) descs v ->
  (write_file E (OsPath.join (gettempdir E) g) d ;;
   add_attachment g (OsPath.join (gettempdir E) g)) v = (inr tt, v') ->
  materialized (gettempdir E) (descs ++ [(g, d)]) v'.
Proof.
  intros Hdist Hinv Hrun f.
  unfold mbind, M_bind, write_file, add_attachment, modify in Hrun.
  destruct d as [b|];
    destruct (can_write E _ _ _); simpl in Hrun; try done.
  injection Hrun as <-. simpl.
  rewrite last_data_snoc. destruct (String.eqb g f) eqn:Hgf.
  - apply String.eqb_eq in Hgf as <-.
    by rewrite !lookup_insert_eq.
  - apply String.eqb_neq in Hgf. specialize (Hinv f).
    destruct (last_data descs f) as [data|] eqn:Hlast.
    + apply last_data_Some_in in Hlast.
      rewrite lookup_insert_ne by done.
      rewrite lookup_insert_ne; [done|].
      intros Hjoin. apply Hgf.
      apply (distinct_files_join _ _ g f Hdist); [| |done];
        rewrite fmap_app; apply in_or_app; [right; by left|by left].
    + by rewrite lookup_insert_ne.
Qed.

Lemma descriptors_cons part rest :
  descriptors (part :: rest)
  = match eml_descriptor part with
    | Some d => d :: descriptors rest
    | None => descriptors rest
    end.
Proof. reflexivity. Qed.

(** The loop, from any point of its run. *)
Lemma materialized_loop parts : forall descs v v',
  distinct_files (gettempdir E) (fst <$> descs ++ descriptors parts) ->
  materialized (gettempdir E) descs v ->
  for_each parts (eml_attachment E) v = (inr tt, v') ->
  materialized (gettempdir E) (descs ++ descriptors parts) v'.
Proof.
  induction parts as [|part rest IH]; intros descs v v' Hrel Hinv Hrun.
  - simpl in Hrun. injection Hrun as <-. unfold descriptors. simpl.
    by rewrite app_nil_r.
  - simpl in Hrun. unfold mbind at 1, M_bind at 1 in Hrun.
    rewrite descriptors_cons in *. rewrite eml_attachment_descriptor in Hrun.
    destruct (eml_descriptor part) as [[g d]|].
    + destruct ((write_file E _ d ;; add_attachment g _) v)
        as [[e|[]] v1] eqn:Hstep; [done|].
      replace (descs ++ (g, d) :: descriptors rest)
        with ((descs ++ [(g, d)]) ++ descriptors rest) in *
        by (by rewrite <- app_assoc).
      apply (IH _ v1); [done| |done].
      rewrite fmap_app in Hrel. apply distinct_files_app_l in Hrel.
      by apply (materialized_step descs g d v).
    + by apply (IH _ v).
Qed.

(** A successful [load_eml] is a successful run of its attachment loop, from
    a viewer that has the files and attachments it started with. *)
Lemma load_eml_returns file_path msg v v' :
  parse_eml E file_path = inr msg ->
  load_eml E file_path v = (inr tt, v') ->
  exists v0, attachments v0 = attachments v /\ files v0 = files v /\
    for_each (walk msg) (eml_attachment E) v0 = (inr tt, v').
Proof.
  intros Hparse. unfold load_eml, mbind, M_bind, lift. rewrite Hparse. simpl.
  destruct (eml_body msg) as [e|[body|b]]; simpl; [done| |done].
  intros Hrun. refine (ex_intro _ _ (conj _ (conj _ Hrun))); reflexivity.
Qed.

Lemma load_email_file_eml file_path v :
  Py.lower (snd (OsPath.splitext file_path)) = ".eml" ->
  exists v0, attachments v0 = ∅ /\ files v0 = files v /\
    load_email_file E file_path v = load_eml E file_path v0.
Proof.
  intros Hext. unfold load_email_file. rewrite Hext.
  unfold mbind, M_bind, modify. simpl.
  refine (ex_intro _ _ (conj _ (conj _ eq_refl))); reflexivity.
Qed.

End RoundTrip.

(** C7 (amended).  Attachment round trip with last write wins: after an
    [.eml] open that returns, if no two different attachment file names of
    the message are written to one file (as [x.txt] and [./x.txt], or
    [x.txt] and [/tmp/x.txt], are), then every file name in the attachment
    map is mapped to its joined path, and reading that path yields the data
    of the last descriptor of the message bearing that name; and every
    descriptor's name is in the map.  In particular the bytes of a uniquely
    named attachment are read back. *)
Theorem attachment_round_trip (E : Env) (file_path : string) (msg : Message)
    (v v' : Viewer) :
  Py.lower (snd (OsPath.splitext file_path)) = ".eml" ->
  parse_eml E file_path = inr msg ->
  load_email_file E file_path v = (inr tt, v') ->
  distinct_files (gettempdir E) (fst <$> descriptors (walk msg)) ->
  (forall filename path, attachments v' !! filename = Some path ->
     path = OsPath.join (gettempdir E) filename /\
     exists data,
       last_data (descriptors (walk msg)) filename = Some (Some data) /\
       files v' !! path = Some data) /\
  (forall filename data,
     last_data (descriptors (walk msg)) filename = Some data ->
     attachments v' !! filename = Some (OsPath.join (gettempdir E) filename) /\
     files v' !! OsPath.join (gettempdir E) filename = data).
Proof.
  intros Hext Hparse Hrun Hrel.
  destruct (load_email_file_eml E file_path v Hext) as (v0 & Hatt0 & _ & Heq).
  rewrite Heq in Hrun.
  destruct (load_eml_returns E file_path msg v0 v' Hparse Hrun)
    as (v1 & Hatt1 & _ & Hloop).
  assert (materialized (gettempdir E) (descriptors (walk msg)) v') as Hinv.
  { apply (materialized_loop E (walk msg) [] v1 v'); [done| |done].
    intros f. simpl. by rewrite Hatt1, Hatt0. }
  split.
  - intros filename path Hlook. specialize (Hinv filename).
    destruct (last_data _ filename) as [data|]; [|congruence].
    destruct Hinv as (Hpath & Hfile & [b ->]).
    rewrite Hpath in Hlook. injection Hlook as <-. eauto.
  - intros filename data Hlast. specialize (Hinv filename).
    rewrite Hlast in Hinv. by destruct Hinv as (? & ? & _).
Qed.

Lemma attachment_round_trip_witness :
  (forall filename path,
     attachments (snd run_two_attachments) !! filename = Some path ->
     path = OsPath.join "/tmp" filename /\
     exists data,
       last_data (descriptors (walk two_attachments_mail)) filename
       = Some (Some data) /\
       files (snd run_two_attachments) !! path = Some data) /\
  (forall filename data,
     last_data (descriptors (walk two_attachments_mail)) filename = Some data ->
     attachments (snd run_two_attachments) !! filename
     = Some (OsPath.join "/tmp" filename) /\
     files (snd run_two_attachments) !! OsPath.join "/tmp" filename = data).
Proof.
  apply (attachment_round_trip (env_of two_attachments_mail no_files)
           "/d/m.eml" two_attachments_mail (init_viewer ∅)
           (snd run_two_attachments));
    [reflexivity|reflexivity|by vm_compute|].
  intros f g Hf Hg Hsame. simpl in Hf, Hg.
  destruct Hf as [<-|[<-|[]]], Hg as [<-|[<-|[]]];
    first [reflexivity|vm_compute in Hsame; discriminate Hsame].
Defined.

(** The names [x.txt] and [./x.txt] of [dotted_mail] are two spellings of
    one file, which the condition of the round trip excludes. *)
Lemma dotted_names_alias :
  ~ distinct_files "/tmp" (fst <$> descriptors (walk dotted_mail)).
Proof.
  intros Hd. specialize (Hd "x.txt" "./x.txt").
  discriminate Hd; [by left|right; by left|reflexivity].
Qed.

(** C7, as stated, fails: in [aliasing_mail] the names [x.txt] and
    [/tmp/x.txt] are written to one path; the map sends [x.txt] to it, and
    reading it yields the bytes of the other attachment, not those of the
    last descriptor named [x.txt]. *)
Lemma attachment_round_trip_counterexample :
  fst run_aliasing = inr tt /\
  attachments (snd run_aliasing) !! "x.txt" = Some "/tmp/x.txt" /\
  files (snd run_aliasing) !! "/tmp/x.txt"
  = Some (String.list_byte_of_string "second") /\
  last_data (descriptors (walk aliasing_mail)) "x.txt"
  = Some (Some (String.list_byte_of_string "first")) /\
  files (snd run_aliasing) !! "/tmp/x.txt"
  <> Some (String.list_byte_of_string "first").
Proof. repeat split; by vm_compute. Qed.

Section Sorting.

Lemma key_le_total a b : key_le a b = false -> key_le b a = true.
Proof.
  unfold key_le. intros H.
  destruct (String.leb_total (Py.lower a) (Py.lower b)); congruence.
Qed.

Lemma insert_sorted_perm x l : Permutation (insert_sorted x l) (x :: l).
Proof.
  induction l as [|y r IH]; simpl; [done|].
  destruct (key_le x y); [done|].
  rewrite IH. apply perm_swap.
Qed.

Lemma sorted_perm l : Permutation (sorted l) l.
Proof.
  induction l as [|x r IH]; simpl; [done|].
  rewrite insert_sorted_perm. by constructor.
Qed.

Lemma insert_sorted_hd x y l :
  key_ordered y x -> HdRel key_ordered y l ->
  HdRel key_ordered y (insert_sorted x l).
Proof.
  intros Hyx Hhd. destruct l as [|z r]; simpl; [by constructor|].
  destruct (key_le x z); constructor; [done|by inversion Hhd].
Qed.

Lemma insert_sorted_Sorted x l :
  Sorted key_ordered l -> Sorted key_ordered (insert_sorted x l).
Proof.
  induction l as [|y r IH]; intros Hs; simpl.
  - by repeat constructor.
  - inversion Hs as [|? ? Hr Hhd]; subst.
    destruct (key_le x y) eqn:Hxy.
    + by repeat constructor.
    + constructor; [by apply IH|].
      apply insert_sorted_hd; [by apply key_le_total|done].
Qed.

Lemma sorted_Sorted l : Sorted key_ordered (sorted l).
Proof.
  induction l as [|x r IH]; simpl; [constructor|].
  by apply insert_sorted_Sorted.
Qed.

(** [index] finds the first position of the string. *)
Lemma index_Some l : forall x i,
  index l x = Some i ->
  0 <= i < Z.of_nat (length l) /\ l !! Z.to_nat i = Some x /\
  forall j, (j < Z.to_nat i)%nat -> l !! j <> Some x.
Proof.
  induction l as [|y r IH]; intros x i Hi; simpl in Hi; [done|].
  destruct (String.eqb y x) eqn:Hyx.
  - apply String.eqb_eq in Hyx as ->. injection Hi as <-. simpl.
    repeat split; [lia..|]. intros j Hj. lia.
  - destruct (index r x) as [i'|] eqn:Hr; [|done].
    injection Hi as <-. destruct (IH x i' Hr) as ([H0 Hlen] & Hlook & Hfirst).
    rewrite Z2Nat.inj_succ by done. simpl. repeat split; [lia|lia|done|].
    intros [|j] Hj; simpl.
    + intros [= ->]. by rewrite String.eqb_refl in Hyx.
    + apply Hfirst. lia.
Qed.

Lemma index_None l x : index l x = None <-> ~ In x l.
Proof.
  induction l as [|y r IH]; simpl; [tauto|].
  destruct (String.eqb y x) eqn:Hyx.
  - apply String.eqb_eq in Hyx. split; [done|]. intros H. destruct H. by left.
  - apply String.eqb_neq in Hyx. destruct (index r x) as [i|]; simpl.
    + split; [done|]. intros H. exfalso. apply H. right.
      destruct (List.in_dec String.string_dec x r) as [Hin|Hnin]; [done|].
      by apply IH in Hnin.
    + split; [|done]. intros _ [Heq|Hin]; [done|]. by apply (proj1 IH).
Qed.

Lemma index_NoDup l : forall n x,
  NoDup l -> l !! n = Some x -> index l x = Some (Z.of_nat n).
Proof.
  induction l as [|y r IH]; intros n x Hnd Hlook; [done|].
  apply NoDup_cons in Hnd as [Hy Hr]. simpl.
  destruct n as [|n]; simpl in Hlook.
  - injection Hlook as ->. by rewrite String.eqb_refl.
  - destruct (String.eqb y x) eqn:Hyx.
    + apply String.eqb_eq in Hyx as ->. exfalso. apply Hy.
      by apply list_elem_of_lookup_2 in Hlook.
    + rewrite (IH n x Hr Hlook). simpl. f_equal. lia.
Qed.

End Sorting.

Section Navigation.

Variable E : Env.

Lemma load_eml_nav file_path v :
  email_files_list (snd (load_eml E file_path v)) = email_files_list v /\
  current_index (snd (load_eml E file_path v)) = current_index v.
Proof.
  unfold load_eml, mbind, M_bind, lift.
  destruct (parse_eml E file_path) as [e|msg]; [done|]. simpl.
  destruct (eml_body msg) as [e|[body|b]]; simpl; [done| |done].
  match goal with |- context [for_each ?l ?f ?v0] =>
    pose proof (for_each_display f l (eml_attachment_display E) v0) as Hd
  end.
  destruct Hd as (_&_&Hl&Hi&_). by rewrite Hl, Hi.
Qed.

Lemma load_msg_nav file_path v :
  email_files_list (snd (load_msg E file_path v)) = email_files_list v /\
  current_index (snd (load_msg E file_path v)) = current_index v.
Proof.
  unfold load_msg, mbind, M_bind, lift.
  destruct (read_msg E file_path) as [e|m]; [done|]. simpl.
  match goal with |- context [for_each ?l ?f ?v0] =>
    pose proof (for_each_display f l (msg_attachment_display E) v0) as Hd
  end.
  destruct Hd as (_&_&Hl&Hi&_). by rewrite Hl, Hi.
Qed.

(** Every open, whatever its outcome, leaves the file list and the index
    computed from the path. *)
Lemma load_email_file_nav file_path v :
  email_files_list (snd (load_email_file E file_path v))
  = list_files E file_path /\
  current_index (snd (load_email_file E file_path v))
  = find_index (list_files E file_path) file_path.
Proof.
  unfold load_email_file, mbind, M_bind, modify. simpl.
  destruct (String.eqb _ ".eml").
  - match goal with |- context [load_eml E file_path ?v0] =>
      destruct (load_eml_nav file_path v0) as [-> ->] end. done.
  - destruct (String.eqb _ ".msg"); [|done].
    destruct (extract_msg E); [|done].
    match goal with |- context [load_msg E file_path ?v0] =>
      destruct (load_msg_nav file_path v0) as [-> ->] end. done.
Qed.

Lemma list_files_found file_path :
  Permutation (list_files E file_path)
    (glob E (OsPath.join (OsPath.dirname file_path) "*.eml") ++
     (if extract_msg E
      then glob E (OsPath.join (OsPath.dirname file_path) "*.msg")
      else [])).
Proof.
  unfold list_files. rewrite sorted_perm.
  destruct (extract_msg E); simpl; by rewrite !app_nil_r.
Qed.

Lemma find_index_in l x :
  In x l ->
  0 <= find_index l x < Z.of_nat (length l) /\
  l !! Z.to_nat (find_index l x) = Some x /\
  forall j, (j < Z.to_nat (find_index l x))%nat -> l !! j <> Some x.
Proof.
  intros Hin. unfold find_index.
  destruct (index l x) as [i|] eqn:Hi; [by apply index_Some|].
  by apply index_None in Hi.
Qed.

Lemma find_index_not_in l x : ~ In x l -> find_index l x = -1.
Proof. intros H%index_None. unfold find_index. by rewrite H. Qed.

End Navigation.

(** The file list in terms of what [glob] returns: after every open it
    holds the paths that [glob] returns for [*.eml] in the directory of the
    file, and for [*.msg] too when the container reader is available, in the
    order of their lowered paths; the index is the first position of the
    opened path in the list when it is there, and -1 otherwise. *)
Theorem navigation_rebuild (E : Env) (file_path : string) (v : Viewer) :
  let v' := snd (load_email_file E file_path v) in
  let directory := OsPath.dirname file_path in
  let found :=
    glob E (OsPath.join directory "*.eml") ++
    (if extract_msg E then glob E (OsPath.join directory "*.msg") else []) in
  Permutation (email_files_list v') found /\
  Sorted key_ordered (email_files_list v') /\
  (In file_path found ->
     0 <= current_index v' < Z.of_nat (length (email_files_list v')) /\
     email_files_list v' !! Z.to_nat (current_index v') = Some file_path /\
     forall j, (j < Z.to_nat (current_index v'))%nat ->
       email_files_list v' !! j <> Some file_path) /\
  (~ In file_path found -> current_index v' = -1) /\
  (extract_msg E = true ->
   Permutation ["/d/a.eml"; "/d/B.eml"] (glob E "/d/*.eml") ->
   glob E "/d/*.msg" = ["/d/c.msg"] ->
   file_path = "/d/B.eml" ->
   email_files_list v' = ["/d/a.eml"; "/d/B.eml"; "/d/c.msg"] /\
   current_index v' = 1).
Proof.
  intros v' directory found. subst v' directory found.
  destruct (load_email_file_nav E file_path v) as [-> ->].
  pose proof (list_files_found E file_path) as Hperm.
  split; [done|]. split; [apply sorted_Sorted|]. split; [|split].
  - intros Hin. apply find_index_in.
    by apply (Permutation_in _ (Permutation_sym Hperm)).
  - intros Hnin. apply find_index_not_in. intros Hin. apply Hnin.
    by apply (Permutation_in _ Hperm).
  - intros Hmsg Heml Hc ->. unfold list_files. rewrite Hmsg.
    replace (OsPath.join (OsPath.dirname "/d/B.eml") "*.eml") with "/d/*.eml"
      by reflexivity.
    replace (OsPath.join (OsPath.dirname "/d/B.eml") "*.msg") with "/d/*.msg"
      by reflexivity.
    unfold flat_map. rewrite Hc.
    apply Permutation_length_2_inv in Heml as [-> | ->]; by vm_compute.
Qed.

Section Cycle.

Variable E : Env.

Lemma getitem_in_range (l : list string) i :
  0 <= i < Z.of_nat (length l) ->
  exists p, getitem l i = inr p /\ l !! Z.to_nat i = Some p.
Proof.
  intros Hi. unfold getitem.
  destruct (Z.ltb_spec i 0); [lia|].
  destruct (Z.leb_spec 0 i); [|lia].
  destruct (Z.ltb_spec i (Z.of_nat (length l))); [|lia]. simpl.
  destruct (lookup_lt_is_Some_2 l (Z.to_nat i)) as [p Hp]; [lia|].
  rewrite Hp. by exists p.
Qed.

(** Opening the file at a position of the list keeps the list and moves
    the index to that position. *)
Lemma open_listed v l idx :
  stable_listing E l -> 0 <= idx < Z.of_nat (length l) ->
  exists p, getitem l idx = inr p /\
    email_files_list (snd (load_email_file E p v)) = l /\
    current_index (snd (load_email_file E p v)) = idx.
Proof.
  intros [Hnd Hscan] Hidx.
  destruct (getitem_in_range l idx Hidx) as (p & Hget & Hlook).
  exists p. split; [done|].
  destruct (load_email_file_nav E p v) as [-> ->].
  assert (In p l) as Hin
    by (apply list_elem_of_In; by apply list_elem_of_lookup_2 in Hlook).
  rewrite (Hscan p Hin). split; [done|].
  unfold find_index. rewrite (index_NoDup l _ p Hnd Hlook). lia.
Qed.

Lemma length_pos (l : list string) : l <> [] -> 0 < Z.of_nat (length l).
Proof. destruct l; [done|]. simpl. lia. Qed.

Lemma load_next_nav v :
  email_files_list v <> [] -> stable_listing E (email_files_list v) ->
  email_files_list (after_next E v) = email_files_list v /\
  current_index (after_next E v)
  = (current_index v + 1) `mod` Z.of_nat (length (email_files_list v)).
Proof.
  intros Hne Hstable. pose proof (length_pos _ Hne) as Hk.
  destruct (open_listed v (email_files_list v)
              ((current_index v + 1) `mod` Z.of_nat (length (email_files_list v)))
              Hstable) as (p & Hget & Hnav); [by apply Z.mod_pos_bound|].
  unfold after_next, load_next.
  destruct (email_files_list v) as [|x r] eqn:Hl; [done|].
  unfold mbind, M_bind, lift. by rewrite Hget.
Qed.

Lemma load_previous_nav v :
  email_files_list v <> [] -> stable_listing E (email_files_list v) ->
  email_files_list (after_previous E v) = email_files_list v /\
  current_index (after_previous E v)
  = (current_index v - 1) `mod` Z.of_nat (length (email_files_list v)).
Proof.
  intros Hne Hstable. pose proof (length_pos _ Hne) as Hk.
  destruct (open_listed v (email_files_list v)
              ((current_index v - 1) `mod` Z.of_nat (length (email_files_list v)))
              Hstable) as (p & Hget & Hnav); [by apply Z.mod_pos_bound|].
  unfold after_previous, load_previous.
  destruct (email_files_list v) as [|x r] eqn:Hl; [done|].
  unfold mbind, M_bind, lift. by rewrite Hget.
Qed.


End Cycle.



(** ** Further properties: the attachment store *)

Section Store.

Variable E : Env.

Lemma store_effect g data v :
  attach_effect (gettempdir E) g data v
    (snd ((write_file E (OsPath.join (gettempdir E) g) data ;;
           add_attachment g (OsPath.join (gettempdir E) g)) v))
    (is_ok (fst ((write_file E (OsPath.join (gettempdir E) g) data ;;
                  add_attachment g (OsPath.join (gettempdir E) g)) v))).
Proof.
  unfold mbind, M_bind, write_file, add_attachment, modify.
  destruct data as [b|]; destruct (can_write E _ _ _); simpl.
  - by apply (effect_stored _ _ _ _ _ b).
  - by apply effect_refused.
  - by apply effect_emptied.
  - by apply effect_refused.
Qed.

Lemma eml_attachment_effect part v :
  part_effect (gettempdir E) (eml_descriptor part) v
    (snd (eml_attachment E part v)) (is_ok (fst (eml_attachment E part v))).
Proof.
  rewrite eml_attachment_descriptor.
  destruct (eml_descriptor part) as [[g data]|]; simpl; [|done].
  apply store_effect.
Qed.

Lemma msg_attachment_effect att v :
  exists ok, part_effect (gettempdir E) (msg_descriptor att) v
               (snd (msg_attachment E att v)) ok.
Proof.
  unfold msg_attachment, msg_descriptor.
  destruct (att_filename att) as [filename|]; [|by exists true].
  destruct (Py.truthy filename); [|by exists true].
  pose proof (store_effect filename (att_data att) v) as Heff.
  unfold try_except.
  destruct ((write_file E _ _ ;; add_attachment filename _) v)
    as [[e|[]] v1]; simpl in *.
  - exists false. inversion Heff; [by apply effect_refused|by apply effect_emptied].
  - by exists true.
Qed.

End Store.

Section Written.

Variable dir : string.

Lemma consistent_stored g b v v' :
  attachments v' = <[g := OsPath.join dir g]> (attachments v) ->
  attachments_list v' = attachments_list v ++ [g] ->
  files v' = <[OsPath.join dir g := b]> (files v) ->
  attachments_consistent dir v -> attachments_consistent dir v'.
Proof.
  intros Ha Hl Hf [Hmap Hlist]. split.
  - intros f path. rewrite Ha, Hf. intros Hlook.
    apply lookup_insert_Some in Hlook as [[<- <-]|[Hne Hlook]].
    + split; [done|]. rewrite lookup_insert_eq. by eexists.
    + destruct (Hmap f path Hlook) as [-> Hfile]. split; [done|].
      apply lookup_insert_is_Some'. by right.
  - intros f. rewrite Ha, Hl, elem_of_app, list_elem_of_singleton, Hlist.
    rewrite lookup_insert_is_Some'. split; intros [?|?]; auto.
Qed.

Lemma consistent_files v v' b path :
  attachments v' = attachments v ->
  attachments_list v' = attachments_list v ->
  files v' = files v \/ files v' = <[path := b]> (files v) ->
  attachments_consistent dir v -> attachments_consistent dir v'.
Proof.
  intros Ha Hl Hf [Hmap Hlist]. split.
  - intros f p. rewrite Ha. intros Hlook.
    destruct (Hmap f p Hlook) as [-> Hfile]. split; [done|].
    destruct Hf as [-> | ->]; [done|]. apply lookup_insert_is_Some'. by right.
  - intros f. by rewrite Ha, Hl.
Qed.

Lemma written_unchanged descs v v' :
  attachments v' = attachments v ->
  attachments_list v' = attachments_list v ->
  files v' = files v ->
  written_from dir descs v v'.
Proof.
  intros Ha Hl Hf. split; [|split; [|split]].
  - intros f. rewrite Ha. by left.
  - intros path _. by rewrite Hf.
  - intros path. by rewrite Hf.
  - apply (consistent_files v v' [] ""); auto.
Qed.

Lemma written_step d v v' ok :
  part_effect dir d v v' ok -> written_from dir (option_list d) v v'.
Proof.
  destruct d as [[g data]|]; simpl.
  - intros Heff.
    destruct Heff as [Ha Hl Hf | Hd Ha Hl Hf | b Hd Ha Hl Hf].
    + by apply written_unchanged.
    + split; [|split; [|split]].
      * intros f. rewrite Ha. by left.
      * intros path Hpath. rewrite Hf, lookup_insert_ne; [done|].
        intros <-. apply (Hpath g); [|done]. apply elem_of_cons. by left.
      * intros path. rewrite Hf. intros Hfile.
        apply lookup_insert_is_Some'. by right.
      * apply (consistent_files v v' [] (OsPath.join dir g)); auto.
    + split; [|split; [|split]].
      * intros f. rewrite Ha, lookup_insert_is_Some'. intros [<-|?]; [|by left].
        right. apply elem_of_cons. by left.
      * intros path Hpath. rewrite Hf, lookup_insert_ne; [done|].
        intros <-. apply (Hpath g); [|done]. apply elem_of_cons. by left.
      * intros path. rewrite Hf. intros Hfile.
        apply lookup_insert_is_Some'. by right.
      * by apply (consistent_stored g b v v').
  - intros (_ & Ha & Hl & Hf). by apply written_unchanged.
Qed.

Lemma written_trans l1 l2 v1 v2 v3 :
  written_from dir l1 v1 v2 -> written_from dir l2 v2 v3 ->
  written_from dir (l1 ++ l2) v1 v3.
Proof.
  intros (Hk1 & Hf1 & Hd1 & Hc1) (Hk2 & Hf2 & Hd2 & Hc2).
  split; [|split; [|split]].
  - intros f Hf. rewrite fmap_app, elem_of_app.
    destruct (Hk2 f Hf) as [H2|H2]; [|by auto].
    destruct (Hk1 f H2); by auto.
  - intros path Hpath. rewrite Hf2, Hf1; [done| |];
      intros f Hf; apply Hpath; rewrite fmap_app, elem_of_app; by auto.
  - intros path Hfile. by apply Hd2, Hd1.
  - intros Hc. by apply Hc2, Hc1.
Qed.

(** A loop whose every pass has the effect of its descriptor. *)
Lemma written_loop {A} (body : A -> M unit)
    (desc : A -> option (string * option (list byte))) :
  (forall x v, exists ok, part_effect dir (desc x) v (snd (body x v)) ok) ->
  forall l v, written_from dir (omap desc l) v (snd (for_each l body v)).
Proof.
  intros Hbody. induction l as [|x r IH]; intros v.
  - by apply written_unchanged.
  - destruct (Hbody x v) as [ok Heff]. apply written_step in Heff.
    assert (omap desc (x :: r) = option_list (desc x) ++ omap desc r) as ->
      by (cbn; destruct (desc x); reflexivity).
    cbn [for_each]. unfold mbind, M_bind.
    destruct (body x v) as [[e|[]] v1]; simpl in *.
    + eapply written_trans; [exact Heff|by apply written_unchanged].
    + eapply written_trans; [exact Heff|apply IH].
Qed.

End Written.

Section OpenStore.

Variable E : Env.

Lemma load_eml_written file_path v :
  written_from (gettempdir E)
    (match parse_eml E file_path with
     | inr msg => descriptors (walk msg)
     | inl _ => []
     end)
    v (snd (load_eml E file_path v)).
Proof.
  unfold load_eml, mbind, M_bind, lift.
  destruct (parse_eml E file_path) as [e|msg]; simpl;
    [by apply written_unchanged|].
  destruct (eml_body msg) as [e|[body|b]]; simpl;
    [by apply written_unchanged| |by apply written_unchanged].
  apply (written_trans _ [] (descriptors (walk msg)) v
           (set_body_text body (set_labels
              {| label_from := "From: " +:+ get_default msg "From" "";
                 label_to := "To: " +:+ get_default msg "To" "";
                 label_cc := "CC: " +:+ get_default msg "Cc" "";
                 label_bcc := "BCC: " +:+ get_default msg "Bcc" "";
                 label_subject := "Subject: " +:+ get_default msg "Subject" "";
                 label_date := "Date: " +:+ get_default msg "Date" "" |} v)));
    [by apply written_unchanged|].
  apply (written_loop _ (eml_attachment E) eml_descriptor).
  intros part v1. eexists. apply eml_attachment_effect.
Qed.

Lemma load_msg_written file_path v :
  written_from (gettempdir E)
    (match read_msg E file_path with
     | inr m => omap msg_descriptor (msg_attachments m)
     | inl _ => []
     end)
    v (snd (load_msg E file_path v)).
Proof.
  unfold load_msg, mbind, M_bind, lift.
  destruct (read_msg E file_path) as [e|m]; simpl;
    [by apply written_unchanged|].
  match goal with |- context [for_each _ _ ?v1] =>
    apply (written_trans _ [] _ v v1); [by apply written_unchanged|]
  end.
  apply (written_loop _ (msg_attachment E) msg_descriptor).
  intros att v1. apply msg_attachment_effect.
Qed.

(** Every open starts from an empty attachment map and an empty list
    widget, keeps the files it finds, and then changes them by a run over
    the descriptors of the email. *)
Lemma load_email_file_written file_path v :
  exists v0,
    attachments v0 = ∅ /\ attachments_list v0 = [] /\ files v0 = files v /\
    written_from (gettempdir E) (open_descriptors E file_path) v0
      (snd (load_email_file E file_path v)).
Proof.
  unfold load_email_file, open_descriptors, mbind, M_bind, modify. simpl.
  eexists. split; [|split; [|split]]; [..|
    destruct (String.eqb (Py.lower (snd (OsPath.splitext file_path))) ".eml");
    [apply load_eml_written|
     destruct (String.eqb (Py.lower (snd (OsPath.splitext file_path))) ".msg");
     [destruct (extract_msg E);
      [apply load_msg_written|by apply written_unchanged]
     |by apply written_unchanged]]]; reflexivity.
Qed.

Lemma empty_consistent dir v :
  attachments v = ∅ -> attachments_list v = [] ->
  attachments_consistent dir v.
Proof.
  intros Ha Hl. split.
  - intros f path. by rewrite Ha, lookup_empty.
  - intros f. rewrite Ha, Hl, lookup_empty, elem_of_nil.
    split; [done|]. by intros [? ?].
Qed.

Lemma load_email_file_consistent file_path v :
  attachments_consistent (gettempdir E) (snd (load_email_file E file_path v)).
Proof.
  destruct (load_email_file_written file_path v)
    as (v0 & Ha & Hl & _ & _ & _ & _ & Hc).
  by apply Hc, empty_consistent.
Qed.

End OpenStore.

(** X1.  After any open, whatever its outcome, every entry of the
    attachment map sends a file name to [os.path.join] of the temporary
    directory and that name, and a file has been written at that path. *)
Theorem attachments_point_to_written_files (E : Env) (file_path : string)
    (v : Viewer) (filename path : string) :
  attachments (snd (load_email_file E file_path v)) !! filename = Some path ->
  path = OsPath.join (gettempdir E) filename /\
  is_Some (files (snd (load_email_file E file_path v)) !! path).
Proof.
  intros Hlook.
  by apply (proj1 (load_email_file_consistent E file_path v)).
Qed.

Lemma attachments_point_to_written_files_witness :
  "/tmp/report.pdf" = OsPath.join "/tmp" "report.pdf" /\
  is_Some (files (snd report_loaded) !! "/tmp/report.pdf").
Proof.
  apply (attachments_point_to_written_files (env_of report_mail no_files)
           "/d/m.eml" (init_viewer ∅) "report.pdf" "/tmp/report.pdf").
  reflexivity.
Defined.

(** X2.  After any open, whatever its outcome, the texts of the items of
    the attachment list are exactly the names in the attachment map: an item
    the user double-clicks is always found in the map. *)
Theorem attachment_items_match_map (E : Env) (file_path : string)
    (v : Viewer) (filename : string) :
  filename ∈ attachments_list (snd (load_email_file E file_path v)) <->
  is_Some (attachments (snd (load_email_file E file_path v)) !! filename).
Proof. apply (proj2 (load_email_file_consistent E file_path v)). Qed.

(** X3.  The attachment map is rebuilt for each email: after any open,
    every name in it is the file name of an attachment of the email just
    opened, so no entry of a previous email survives. *)
Theorem no_stale_attachments (E : Env) (file_path : string) (v : Viewer)
    (filename : string) :
  is_Some (attachments (snd (load_email_file E file_path v)) !! filename) ->
  filename ∈ (fst <$> open_descriptors E file_path).
Proof.
  intros Hin.
  destruct (load_email_file_written E file_path v)
    as (v0 & Ha & _ & _ & Hkeys & _).
  destruct (Hkeys filename Hin) as [Hold|Hnew]; [|done].
  rewrite Ha, lookup_empty in Hold. by destruct Hold.
Qed.

Lemma no_stale_attachments_witness :
  "x.txt" ∈ (fst <$> open_descriptors (env_of aliasing_mail no_files) "/d/m.eml").
Proof.
  apply (no_stale_attachments (env_of aliasing_mail no_files) "/d/m.eml"
           (snd report_loaded) "x.txt").
  vm_compute. by eexists.
Defined.

(** X4.  No open ever deletes a file: a temporary file written for an
    earlier email is still there after any later open. *)
Theorem files_never_deleted (E : Env) (file_path : string) (v : Viewer)
    (path : string) :
  is_Some (files v !! path) ->
  is_Some (files (snd (load_email_file E file_path v)) !! path).
Proof.
  intros Hfile.
  destruct (load_email_file_written E file_path v)
    as (v0 & _ & _ & Hf & _ & _ & Hkeep & _).
  apply Hkeep. by rewrite Hf.
Qed.

Lemma files_never_deleted_witness :
  is_Some (files (snd (load_email_file (env_of aliasing_mail no_files)
                         "/d/m.eml" (snd report_loaded)))
           !! "/tmp/report.pdf").
Proof.
  apply (files_never_deleted (env_of aliasing_mail no_files) "/d/m.eml"
           (snd report_loaded) "/tmp/report.pdf").
  vm_compute. by eexists.
Defined.



Section Listing.

Variable E : Env.

(** A run of the attachment loop of [load_eml] that returns has added one
    item per descriptor, in the order of the walk. *)
Lemma eml_loop_listed parts : forall v v',
  for_each parts (eml_attachment E) v = (inr tt, v') ->
  attachments_list v' = attachments_list v ++ (fst <$> descriptors parts).
Proof.
  induction parts as [|part rest IH]; intros v v' Hrun.
  - simpl in Hrun. injection Hrun as <-. by rewrite app_nil_r.
  - cbn [for_each] in Hrun. unfold mbind, M_bind in Hrun.
    pose proof (eml_attachment_effect E part v) as Heff.
    destruct (eml_attachment E part v) as [[e|[]] v1]; [done|].
    simpl in Heff. apply IH in Hrun. rewrite Hrun, descriptors_cons.
    destruct (eml_descriptor part) as [[g data]|]; simpl in Heff.
    + inversion Heff as [| |b Hd Ha Hl Hf].
      rewrite Hl, <- app_assoc. reflexivity.
    + destruct Heff as (_ & _ & -> & _). reflexivity.
Qed.

Lemma load_email_file_eml_loop file_path msg v v' :
  Py.lower (snd (OsPath.splitext file_path)) = ".eml" ->
  parse_eml E file_path = inr msg ->
  load_email_file E file_path v = (inr tt, v') ->
  exists v0, attachments_list v0 = [] /\
    for_each (walk msg) (eml_attachment E) v0 = (inr tt, v').
Proof.
  intros Hext Hparse. unfold load_email_file. rewrite Hext.
  unfold mbind at 1 2 3 4 5 6 7, M_bind at 1 2 3 4 5 6 7, modify. simpl.
  unfold load_eml, mbind, M_bind, lift. rewrite Hparse. simpl.
  destruct (eml_body msg) as [e|[body|b]]; simpl; [done| |done].
  intros Hrun. refine (ex_intro _ _ (conj _ Hrun)). reflexivity.
Qed.

Lemma load_email_file_display file_path v :
  window_title (snd (load_email_file E file_path v))
  = "Emlee - " +:+ OsPath.basename file_path /\
  current_email_path (snd (load_email_file E file_path v)) = Some file_path.
Proof.
  unfold load_email_file, mbind at 1 2 3 4 5 6 7, M_bind at 1 2 3 4 5 6 7,
    modify. simpl.
  destruct (String.eqb _ ".eml").
  - unfold load_eml, mbind, M_bind, lift.
    destruct (parse_eml E file_path) as [e|msg]; [done|]. simpl.
    destruct (eml_body msg) as [e|[body|b]]; simpl; [done| |done].
    match goal with |- context [for_each ?l ?f ?v0] =>
      pose proof (for_each_display f l (eml_attachment_display E) v0) as Hd
    end.
    destruct Hd as (Ht&Hp&_). by rewrite Ht, Hp.
  - destruct (String.eqb _ ".msg"); [|done].
    destruct (extract_msg E); [|done].
    unfold load_msg, mbind, M_bind, lift.
    destruct (read_msg E file_path) as [e|m]; [done|]. simpl.
    match goal with |- context [for_each ?l ?f ?v0] =>
      pose proof (for_each_display f l (msg_attachment_display E) v0) as Hd
    end.
    destruct Hd as (Ht&Hp&_). by rewrite Ht, Hp.
Qed.

Lemma load_eml_labels file_path msg v :
  parse_eml E file_path = inr msg ->
  labels (snd (load_eml E file_path v))
  = {| label_from := "From: " +:+ get_default msg "From" "";
       label_to := "To: " +:+ get_default msg "To" "";
       label_cc := "CC: " +:+ get_default msg "Cc" "";
       label_bcc := "BCC: " +:+ get_default msg "Bcc" "";
       label_subject := "Subject: " +:+ get_default msg "Subject" "";
       label_date := "Date: " +:+ get_default msg "Date" "" |}.
Proof.
  intros Hparse. unfold load_eml, mbind, M_bind, lift. rewrite Hparse. simpl.
  destruct (eml_body msg) as [e|[body|b]]; simpl; [done| |done].
  match goal with |- context [for_each ?l ?f ?v0] =>
    pose proof (for_each_display f l (eml_attachment_display E) v0) as Hd
  end.
  destruct Hd as (_&_&_&_&Hlab&_). by rewrite Hlab.
Qed.

End Listing.

(** X6.  After an [.eml] open that returns, the attachment list shows one
    item per attachment of the message, in the order of the walk; two
    attachments of the same name give two items (and one map entry). *)
Theorem eml_attachments_listed_in_order (E : Env) (file_path : string)
    (msg : Message) (v v' : Viewer) :
  Py.lower (snd (OsPath.splitext file_path)) = ".eml" ->
  parse_eml E file_path = inr msg ->
  load_email_file E file_path v = (inr tt, v') ->
  attachments_list v' = fst <$> descriptors (walk msg).
Proof.
  intros Hext Hparse Hrun.
  destruct (load_email_file_eml_loop E file_path msg v v' Hext Hparse Hrun)
    as (v0 & Hl & Hloop).
  apply eml_loop_listed in Hloop. by rewrite Hloop, Hl.
Qed.

Lemma eml_attachments_listed_in_order_witness :
  attachments_list (snd run_aliasing)
  = fst <$> descriptors (walk aliasing_mail).
Proof.
  apply (eml_attachments_listed_in_order (env_of aliasing_mail no_files)
           "/d/m.eml" aliasing_mail (init_viewer ∅) (snd run_aliasing));
    by vm_compute.
Defined.

(** X7.  Whatever the outcome of an open, even when the file cannot be read
    or is of no supported format, the window title and the current path are
    those of the file that was asked for. *)
Theorem title_follows_requested_file (E : Env) (file_path : string)
    (v : Viewer) :
  window_title (snd (load_email_file E file_path v))
  = "Emlee - " +:+ OsPath.basename file_path /\
  current_email_path (snd (load_email_file E file_path v)) = Some file_path.
Proof. apply load_email_file_display. Qed.

(** X8.  Once an [.eml] file has been parsed, the six header labels show
    the fields of the parsed message, also when the open then fails on the
    body or on an attachment. *)
Theorem labels_follow_parsed_message (E : Env) (file_path : string)
    (msg : Message) (v : Viewer) :
  Py.lower (snd (OsPath.splitext file_path)) = ".eml" ->
  parse_eml E file_path = inr msg ->
  labels (snd (load_email_file E file_path v))
  = {| label_from := "From: " +:+ get_default msg "From" "";
       label_to := "To: " +:+ get_default msg "To" "";
       label_cc := "CC: " +:+ get_default msg "Cc" "";
       label_bcc := "BCC: " +:+ get_default msg "Bcc" "";
       label_subject := "Subject: " +:+ get_default msg "Subject" "";
       label_date := "Date: " +:+ get_default msg "Date" "" |}.
Proof.
  intros Hext Hparse. unfold load_email_file. rewrite Hext.
  unfold mbind at 1 2 3 4 5 6 7, M_bind at 1 2 3 4 5 6 7, modify. simpl.
  by apply load_eml_labels.
Qed.

Lemma labels_follow_parsed_message_witness :
  labels (snd run_bad_charset_open)
  = {| label_from := "From: "; label_to := "To: "; label_cc := "CC: ";
       label_bcc := "BCC: "; label_subject := "Subject: ";
       label_date := "Date: " |}.
Proof.
  apply (labels_follow_parsed_message (env_of bad_charset_mail no_files)
           "/d/m.eml" bad_charset_mail (init_viewer ∅)); reflexivity.
Defined.

(** X9.  Double-clicking an item of the attachment list after any open
    hands [os.startfile] the joined path of that name, where a file has been
    written; when [os.startfile] raises, a warning is shown and nothing is
    raised.  A text that is not in the list changes nothing. *)
Theorem listed_attachment_opens (E : Env) (startfile : string -> option exn)
    (file_path : string) (v : Viewer) (filename : string)
    (launched : list string) :
  let v' := snd (load_email_file E file_path v) in
  let path := OsPath.join (gettempdir E) filename in
  (filename ∈ attachments_list v' ->
     is_Some (files v' !! path) /\
     open_attachment startfile filename (mkDesk v' launched)
     = match startfile path with
       | None => mkDesk v' (launched ++ [path])
       | Some e =>
           mkDesk (set_warnings
                     (warnings v' ++
                      ["Could not open attachment:" +:+ newline +:+ exn_name e])
                     v')
                  launched
       end) /\
  (filename ∉ attachments_list v' ->
     open_attachment startfile filename (mkDesk v' launched)
     = mkDesk v' launched).
Proof.
  intros v' path. subst v' path.
  destruct (load_email_file_consistent E file_path v) as [Hmap Hlist].
  split.
  - intros [p Hp]%Hlist. destruct (Hmap filename p Hp) as [-> Hfile].
    split; [done|]. unfold open_attachment. simpl. by rewrite Hp.
  - intros Hnot. unfold open_attachment. simpl.
    destruct (attachments _ !! filename) as [p|] eqn:Hp; [|done].
    exfalso. apply Hnot, Hlist. by eexists.
Qed.

Lemma listed_attachment_opens_witness :
  is_Some (files (snd report_loaded) !! "/tmp/report.pdf") /\
  open_attachment (fun _ => None) "report.pdf" (mkDesk (snd report_loaded) [])
  = mkDesk (snd report_loaded) ["/tmp/report.pdf"].
Proof.
  apply (proj1 (listed_attachment_opens (env_of report_mail no_files)
                  (fun _ => None) "/d/m.eml" (init_viewer ∅) "report.pdf" [])).
  vm_compute. apply elem_of_cons. by left.
Defined.

(** X10.  Once [extract_msg] has read a [.msg] file, the open returns
    normally: no failure of an attachment write reaches the caller. *)
Theorem msg_open_returns (E : Env) (file_path : string) (m : MsgFile)
    (v : Viewer) :
  Py.lower (snd (OsPath.splitext file_path)) = ".msg" ->
  extract_msg E = true ->
  read_msg E file_path = inr m ->
  fst (load_email_file E file_path v) = inr tt.
Proof.
  intros Hext Hmod Hread. unfold load_email_file. rewrite Hext, Hmod.
  unfold mbind at 1 2 3 4 5 6 7, M_bind at 1 2 3 4 5 6 7, modify. simpl.
  unfold load_msg, mbind, M_bind, lift. rewrite Hread. simpl.
  apply msg_attachments_return.
Qed.

Lemma msg_open_returns_witness :
  fst (load_email_file refusing_env "/d/m.msg" (init_viewer ∅)) = inr tt.
Proof.
  apply (msg_open_returns refusing_env "/d/m.msg" two_attachments_msg
           (init_viewer ∅)); reflexivity.
Defined.

(** ** Further properties: navigation *)

Section Buttons.

Variable E : Env.

Lemma button_opens_listed (v : Viewer) (i : Z) :
  email_files_list v <> [] ->
  exists p, p ∈ email_files_list v /\
    getitem (email_files_list v)
      (i `mod` Z.of_nat (length (email_files_list v))) = inr p.
Proof.
  intros Hne. pose proof (length_pos _ Hne) as Hk.
  destruct (getitem_in_range (email_files_list v)
              (i `mod` Z.of_nat (length (email_files_list v))))
    as (p & Hget & Hlook); [by apply Z.mod_pos_bound|].
  exists p. split; [|done]. by apply list_elem_of_lookup_2 in Hlook.
Qed.

End Buttons.

(** X11.  With a file list that is not empty, Next and Previous always open
    a file of the list, whatever the current index is (the sentinel -1
    included): indexing the list never fails. *)
Theorem buttons_open_listed_files (E : Env) (v : Viewer) :
  email_files_list v <> [] ->
  (exists p, p ∈ email_files_list v /\
     load_next E v = load_email_file E p v) /\
  (exists p, p ∈ email_files_list v /\
     load_previous E v = load_email_file E p v).
Proof.
  intros Hne. split.
  - destruct (button_opens_listed v (current_index v + 1) Hne)
      as (p & Hin & Hget).
    exists p. split; [done|]. unfold load_next.
    destruct (email_files_list v) as [|x r] eqn:Hl; [done|].
    unfold mbind, M_bind, lift. by rewrite Hget.
  - destruct (button_opens_listed v (current_index v - 1) Hne)
      as (p & Hin & Hget).
    exists p. split; [done|]. unfold load_previous.
    destruct (email_files_list v) as [|x r] eqn:Hl; [done|].
    unfold mbind, M_bind, lift. by rewrite Hget.
Qed.

Lemma buttons_open_listed_files_witness :
  (exists p, p ∈ email_files_list opened_B /\
     load_next nav_env opened_B = load_email_file nav_env p opened_B) /\
  (exists p, p ∈ email_files_list opened_B /\
     load_previous nav_env opened_B = load_email_file nav_env p opened_B).
Proof. apply (buttons_open_listed_files nav_env opened_B). by vm_compute. Defined.

(** X12.  On a stable file list and from an index within the list,
    Previous undoes Next and Next undoes Previous: the list is kept and the
    index comes back to where it was. *)
Theorem previous_undoes_next (E : Env) (v : Viewer) :
  email_files_list v <> [] ->
  stable_listing E (email_files_list v) ->
  0 <= current_index v < Z.of_nat (length (email_files_list v)) ->
  email_files_list (after_previous E (after_next E v)) = email_files_list v /\
  current_index (after_previous E (after_next E v)) = current_index v /\
  email_files_list (after_next E (after_previous E v)) = email_files_list v /\
  current_index (after_next E (after_previous E v)) = current_index v.
Proof.
  intros Hne Hstable Hi.
  destruct (load_next_nav E v Hne Hstable) as [Hnl Hni].
  destruct (load_previous_nav E v Hne Hstable) as [Hpl Hpi].
  destruct (load_previous_nav E (after_next E v)) as [Hl1 Hi1];
    [by rewrite Hnl..|].
  destruct (load_next_nav E (after_previous E v)) as [Hl2 Hi2];
    [by rewrite Hpl..|].
  rewrite Hl1, Hi1, Hl2, Hi2, Hnl, Hni, Hpl, Hpi.
  repeat split.
  - rewrite Zminus_mod_idemp_l.
    replace (current_index v + 1 - 1) with (current_index v) by lia.
    by apply Z.mod_small.
  - rewrite Zplus_mod_idemp_l.
    replace (current_index v - 1 + 1) with (current_index v) by lia.
    by apply Z.mod_small.
Qed.

Lemma previous_undoes_next_witness :
  email_files_list (after_previous nav_env (after_next nav_env opened_B))
  = email_files_list opened_B /\
  current_index (after_previous nav_env (after_next nav_env opened_B))
  = current_index opened_B /\
  email_files_list (after_next nav_env (after_previous nav_env opened_B))
  = email_files_list opened_B /\
  current_index (after_next nav_env (after_previous nav_env opened_B))
  = current_index opened_B.
Proof.
  apply (previous_undoes_next nav_env opened_B); [done| |by vm_compute].
  split; [compute_done|].
  intros p Hin. simpl in Hin.
  destruct Hin as [<-|[<-|[<-|[]]]]; reflexivity.
Defined.

(** X13.  When the opened file is not in the list (index -1), Next goes to
    the first file of a stable list, and Previous goes to the file before
    the last one (to the only file when there is just one), not to the
    last. *)
Theorem navigation_from_sentinel (E : Env) (v : Viewer) :
  email_files_list v <> [] ->
  stable_listing E (email_files_list v) ->
  current_index v = -1 ->
  current_index (after_next E v) = 0 /\
  current_index (after_previous E v)
  = if Z.of_nat (length (email_files_list v)) =? 1 then 0
    else Z.of_nat (length (email_files_list v)) - 2.
Proof.
  intros Hne Hstable Hi. pose proof (length_pos _ Hne) as Hk.
  destruct (load_next_nav E v Hne Hstable) as [_ ->].
  destruct (load_previous_nav E v Hne Hstable) as [_ ->].
  rewrite Hi. split; [by apply Z.mod_0_l; lia|].
  destruct (Z.eqb_spec (Z.of_nat (length (email_files_list v))) 1) as [->|Hk1].
  - reflexivity.
  - rewrite <- (Z.mod_add _ 1) by lia. rewrite Z.mod_small; lia.
Qed.

Lemma navigation_from_sentinel_witness :
  current_index (after_next nav_env opened_elsewhere) = 0 /\
  current_index (after_previous nav_env opened_elsewhere)
  = if Z.of_nat (length (email_files_list opened_elsewhere)) =? 1 then 0
    else Z.of_nat (length (email_files_list opened_elsewhere)) - 2.
Proof.
  apply (navigation_from_sentinel nav_env opened_elsewhere);
    [done| |reflexivity].
  split; [compute_done|].
  intros p Hin. simpl in Hin.
  destruct Hin as [<-|[<-|[<-|[]]]]; reflexivity.
Defined.

(** ** Further properties: drag and drop *)

Section Paths.

Lemma append_cons (c : ascii) (s t : string) :
  String c s +:+ t = String c (s +:+ t).
Proof. reflexivity. Qed.

Lemma append_nil_r (s : string) : s +:+ "" = s.
Proof. induction s as [|c s IH]; [done|]. by rewrite append_cons, IH. Qed.

Lemma append_assoc (a b c : string) : (a +:+ b) +:+ c = a +:+ (b +:+ c).
Proof.
  induction a as [|x a IH]; [done|]. by rewrite !append_cons, IH.
Qed.

Lemma lower_app (a b : string) :
  Py.lower (a +:+ b) = Py.lower a +:+ Py.lower b.
Proof.
  induction a as [|c a IH]; [done|]. rewrite append_cons. simpl.
  by rewrite IH.
Qed.

Lemma endswith_split (s suffix : string) :
  endswith s suffix = true -> exists x, s = x +:+ suffix.
Proof.
  induction s as [|c s IH].
  - destruct suffix; [by exists ""|done].
  - cbn [endswith].
    intros [->%String.eqb_eq|H]%orb_true_iff; [by exists ""|].
    destruct (IH H) as [x ->]. by exists (String c x).
Qed.

Lemma endswith_app (x suffix : string) : endswith (x +:+ suffix) suffix = true.
Proof.
  induction x as [|c x IH].
  - change ("" +:+ suffix) with suffix.
    destruct suffix; cbn [endswith]; by rewrite String.eqb_refl.
  - rewrite append_cons. cbn [endswith]. by rewrite IH, orb_true_r.
Qed.

Lemma lower_split (a b : string) : forall p,
  Py.lower p = a +:+ b ->
  exists p1 p2, p = p1 +:+ p2 /\ Py.lower p1 = a /\ Py.lower p2 = b.
Proof.
  induction a as [|c a IH]; intros p Hp; simpl in Hp.
  - by exists "", p.
  - destruct p as [|d p]; [done|]. simpl in Hp. injection Hp as Hc Hp.
    destruct (IH p Hp) as (p1 & p2 & -> & <- & <-).
    exists (String d p1), p2. simpl. by rewrite Hc.
Qed.

(** Lowering a character neither makes nor removes a dot or a slash. *)
Lemma lower_char_dot c :
  Ascii.eqb (Py.lower_char c) "." = Ascii.eqb c ".".
Proof. destruct c as [[] [] [] [] [] [] [] []]; reflexivity. Qed.

Lemma lower_char_sep c :
  Ascii.eqb (Py.lower_char c) "/" = Ascii.eqb c "/".
Proof. destruct c as [[] [] [] [] [] [] [] []]; reflexivity. Qed.

Lemma has_dot_lower s : has_char "." (Py.lower s) = has_char "." s.
Proof.
  induction s as [|c s IH]; simpl; [done|]. by rewrite lower_char_dot, IH.
Qed.

Lemma has_sep_lower s : has_char "/" (Py.lower s) = has_char "/" s.
Proof.
  induction s as [|c s IH]; simpl; [done|]. by rewrite lower_char_sep, IH.
Qed.

Lemma split_sep_no_sep e :
  has_char "/" e = false -> OsPath.split_sep e = ("", e).
Proof.
  induction e as [|c e IH]; simpl; [done|].
  intros [Hc He]%orb_false_iff. by rewrite (IH He), Hc.
Qed.

Lemma split_sep_app y e :
  has_char "/" e = false ->
  OsPath.split_sep (y +:+ e)
  = (fst (OsPath.split_sep y), snd (OsPath.split_sep y) +:+ e).
Proof.
  intros He. induction y as [|c y IH]; simpl.
  - by apply split_sep_no_sep.
  - rewrite IH. destruct (OsPath.split_sep y) as [h t]. simpl.
    destruct h; [|done]. by destruct (Ascii.eqb c "/").
Qed.

Lemma split_sep_join p :
  fst (OsPath.split_sep p) +:+ snd (OsPath.split_sep p) = p.
Proof.
  induction p as [|c p IH]; simpl; [done|].
  destruct (OsPath.split_sep p) as [h t]. simpl in *.
  destruct h; simpl in *.
  - subst p. by destruct (Ascii.eqb_spec c "/") as [->|].
  - by rewrite append_cons, IH.
Qed.

Lemma split_dot_no_dot e :
  has_char "." e = false -> OsPath.split_dot e = None.
Proof.
  induction e as [|c e IH]; simpl; [done|].
  intros [Hc He]%orb_false_iff. by rewrite (IH He), Hc.
Qed.

Lemma split_dot_app t e :
  has_char "." e = false ->
  OsPath.split_dot (t +:+ String "." e) = Some (t, String "." e).
Proof.
  intros He. induction t as [|c t IH].
  - simpl. by rewrite (split_dot_no_dot e He).
  - change (String c t +:+ String "." e) with (String c (t +:+ String "." e)).
    change (OsPath.split_dot (String c (t +:+ String "." e)))
      with (match OsPath.split_dot (t +:+ String "." e) with
            | Some (a, b) => Some (String c a, b)
            | None => if Ascii.eqb c "."
                      then Some (EmptyString, String c (t +:+ String "." e))
                      else None
            end).
    by rewrite IH.
Qed.

Lemma split_dot_join t : forall a b,
  OsPath.split_dot t = Some (a, b) -> a +:+ b = t.
Proof.
  induction t as [|c t IH]; intros a b; simpl; [done|].
  destruct (OsPath.split_dot t) as [[a' b']|].
  - intros [= <- <-]. by rewrite append_cons, (IH a' b').
  - destruct (Ascii.eqb c "."); [|done]. by intros [= <- <-].
Qed.

(** A name that lowers to [.eml] or [.msg] is a dot followed by three
    characters that are neither dots nor slashes. *)
Lemma extension_shape e :
  Py.lower e = ".eml" \/ Py.lower e = ".msg" ->
  has_char "/" e = false /\
  exists e', e = String "." e' /\ has_char "." e' = false.
Proof.
  intros He. split.
  - rewrite <- has_sep_lower. by destruct He as [-> | ->].
  - destruct e as [|c e']; [by destruct He|].
    assert (Ascii.eqb c "." = true) as ->%Ascii.eqb_eq.
    { rewrite <- lower_char_dot. simpl in He.
      by destruct He as [[= -> _]|[= -> _]]. }
    exists e'. split; [done|]. rewrite <- has_dot_lower. simpl in He.
    by destruct He as [[= ->]|[= ->]].
Qed.

(** [os.path.splitext] on a path that ends with such a name. *)
Lemma splitext_app y e :
  Py.lower e = ".eml" \/ Py.lower e = ".msg" ->
  OsPath.basename (y +:+ e) = OsPath.basename y +:+ e /\
  snd (OsPath.splitext (y +:+ e))
  = if OsPath.all_dots (OsPath.basename y) then "" else e.
Proof.
  intros He. destruct (extension_shape e He) as (Hsep & e' & -> & Hdot).
  unfold OsPath.basename, OsPath.splitext.
  rewrite (split_sep_app y _ Hsep).
  destruct (OsPath.split_sep y) as [h t]. simpl fst. simpl snd.
  split; [done|]. rewrite (split_dot_app t e' Hdot).
  by destruct (OsPath.all_dots t).
Qed.

(** The path is its root followed by its extension. *)
Lemma splitext_join p :
  fst (OsPath.splitext p) +:+ snd (OsPath.splitext p) = p.
Proof.
  unfold OsPath.splitext. pose proof (split_sep_join p) as Hp.
  destruct (OsPath.split_sep p) as [h t]. simpl in Hp.
  destruct (OsPath.split_dot t) as [[a b]|] eqn:Ht; simpl.
  - destruct (OsPath.all_dots a); simpl; [apply append_nil_r|].
    apply split_dot_join in Ht. by rewrite append_assoc, Ht.
  - apply append_nil_r.
Qed.

Lemma is_email_path_split p :
  is_email_path p = true ->
  exists y e, p = y +:+ e /\ (Py.lower e = ".eml" \/ Py.lower e = ".msg").
Proof.
  unfold is_email_path.
  intros [H|H]%orb_true_iff; apply endswith_split in H as [x Hx];
    apply lower_split in Hx as (y & e & -> & _ & He); exists y, e; auto.
Qed.

Lemma drag_urls_accepts urls :
  drag_urls urls = acceptProposedAction <->
  exists x, x ∈ urls /\ is_email_path x = true.
Proof.
  induction urls as [|u rest IH]; simpl.
  - split; [done|]. intros (x & Hx & _). by apply elem_of_nil in Hx.
  - destruct (is_email_path u) eqn:Hu.
    + split; [|done]. intros _. exists u. split; [|done].
      apply elem_of_cons. by left.
    + rewrite IH. split.
      * intros (x & Hx & Hp). exists x. split; [|done].
        apply elem_of_cons. by right.
      * intros (x & Hx & Hp). apply elem_of_cons in Hx as [->|Hx];
          [congruence|by exists x].
Qed.

End Paths.

Section Dispatch.

Variable E : Env.

Lemma load_email_file_unsupported file_path v :
  Py.lower (snd (OsPath.splitext file_path)) <> ".eml" ->
  Py.lower (snd (OsPath.splitext file_path)) <> ".msg" ->
  fst (load_email_file E file_path v) = inr tt /\
  warnings (snd (load_email_file E file_path v))
  = warnings v ++ ["Unsupported file format."].
Proof.
  intros Heml%String.eqb_neq Hmsg%String.eqb_neq.
  unfold load_email_file, mbind, M_bind, modify. simpl.
  by rewrite Heml, Hmsg.
Qed.

(** A path with the extension [.eml] or [.msg], in any case, ends with it. *)
Lemma dispatched_is_email_path file_path :
  Py.lower (snd (OsPath.splitext file_path)) = ".eml" \/
  Py.lower (snd (OsPath.splitext file_path)) = ".msg" ->
  is_email_path file_path = true.
Proof.
  intros Hext. unfold is_email_path.
  rewrite <- (splitext_join file_path) at 1 2. rewrite lower_app.
  destruct Hext as [-> | ->]; rewrite endswith_app; [done|apply orb_true_r].
Qed.

Lemma no_markup_app a b : no_markup (a +:+ b) = no_markup a && no_markup b.
Proof.
  induction a as [|c a IH]; [done|]. rewrite append_cons. simpl.
  by rewrite IH, andb_assoc.
Qed.

Lemma escape_char_no_markup c : no_markup (Py.escape_char c) = true.
Proof.
  unfold Py.escape_char.
  destruct (Ascii.eqb c "&"); [done|].
  destruct (Ascii.eqb c "<") eqn:H1; [done|].
  destruct (Ascii.eqb c ">") eqn:H2; [done|].
  destruct (Ascii.eqb c Py.dquote) eqn:H3; [done|].
  destruct (Ascii.eqb c "'") eqn:H4; [done|].
  simpl. by rewrite H1, H2, H3, H4.
Qed.

Lemma escape_no_markup s : no_markup (Py.escape s) = true.
Proof.
  induction s as [|c s IH]; [done|]. simpl.
  by rewrite no_markup_app, escape_char_no_markup, IH.
Qed.

End Dispatch.

(** X14.  A drag is accepted as soon as one of the dragged files has an
    email file name, but a drop only looks at the first dragged file: when
    that one has an email file name it is opened, and otherwise the drop
    changes nothing, also when the drag was accepted for a later file. *)
Theorem drop_opens_first_file_only (E : Env) (file_path : string)
    (rest : list string) (v : Viewer) :
  (is_email_path file_path = true ->
     dragEnterEvent true (file_path :: rest) = acceptProposedAction /\
     dropEvent E (file_path :: rest) v = load_email_file E file_path v) /\
  (is_email_path file_path = false ->
     dropEvent E (file_path :: rest) v = (inr tt, v) /\
     (dragEnterEvent true (file_path :: rest) = acceptProposedAction <->
      exists x, x ∈ rest /\ is_email_path x = true)).
Proof.
  split; intros Hp; simpl; rewrite Hp; [done|].
  split; [done|]. apply drag_urls_accepts.
Qed.

Lemma drop_opens_first_file_only_witness :
  dropEvent nav_env ["/d/notes.txt"; "/d/a.eml"] (init_viewer ∅)
  = (inr tt, init_viewer ∅) /\
  (dragEnterEvent true ["/d/notes.txt"; "/d/a.eml"] = acceptProposedAction <->
   exists x, x ∈ ["/d/a.eml"] /\ is_email_path x = true).
Proof.
  apply (proj2 (drop_opens_first_file_only nav_env "/d/notes.txt" ["/d/a.eml"]
                  (init_viewer ∅))).
  reflexivity.
Defined.

(** X15.  The two tests of the extension agree except on hidden-style
    names: every path whose extension [load_email_file] dispatches on is
    accepted by [dropEvent]; a path accepted by [dropEvent] has the
    extension [.eml] or [.msg] unless its file name is only dots before the
    final [.eml] or [.msg] (as in [.eml]), and then the open ends in the
    unsupported-format warning. *)
Theorem dropped_file_dispatch (E : Env) (file_path : string) (v : Viewer) :
  let ext := Py.lower (snd (OsPath.splitext file_path)) in
  (ext = ".eml" \/ ext = ".msg" -> is_email_path file_path = true) /\
  (is_email_path file_path = true ->
     ext = ".eml" \/ ext = ".msg" \/
     (ext = "" /\
      (exists dots e, OsPath.basename file_path = dots +:+ e /\
         OsPath.all_dots dots = true /\
         (Py.lower e = ".eml" \/ Py.lower e = ".msg")) /\
      fst (dropEvent E [file_path] v) = inr tt /\
      warnings (snd (dropEvent E [file_path] v))
      = warnings v ++ ["Unsupported file format."])).
Proof.
  intros ext. subst ext. split.
  - apply dispatched_is_email_path.
  - intros Hpath.
    destruct (is_email_path_split file_path Hpath) as (y & e & Hp & He).
    destruct (splitext_app y e He) as [Hbase Hext].
    rewrite <- Hp in Hbase, Hext.
    destruct (OsPath.all_dots (OsPath.basename y)) eqn:Hdots.
    + right. right. rewrite Hext. split; [done|]. split; [by eauto|].
      simpl. rewrite Hpath. apply load_email_file_unsupported;
        by rewrite Hext.
    + rewrite Hext. destruct He; auto.
Qed.

Lemma dropped_file_dispatch_witness :
  Py.lower (snd (OsPath.splitext "/d/.eml")) = ".eml" \/
  Py.lower (snd (OsPath.splitext "/d/.eml")) = ".msg" \/
  (Py.lower (snd (OsPath.splitext "/d/.eml")) = "" /\
   (exists dots e, OsPath.basename "/d/.eml" = dots +:+ e /\
      OsPath.all_dots dots = true /\
      (Py.lower e = ".eml" \/ Py.lower e = ".msg")) /\
   fst (dropEvent nav_env ["/d/.eml"] (init_viewer ∅)) = inr tt /\
   warnings (snd (dropEvent nav_env ["/d/.eml"] (init_viewer ∅)))
   = warnings (init_viewer ∅) ++ ["Unsupported file format."]).
Proof.
  apply (proj2 (dropped_file_dispatch nav_env "/d/.eml" (init_viewer ∅))).
  reflexivity.
Defined.

(** X16.  When [load_msg] shows the plain body (there is no usable HTML
    body), what it puts between [<pre>] and [</pre>] contains no [<], no
    [>] and no quote character: the text cannot open a tag. *)
Theorem plain_body_has_no_markup (E : Env) (file_path : string) (m : MsgFile)
    (v : Viewer) :
  read_msg E file_path = inr m ->
  opt_truthy (htmlBody m) = false ->
  opt_truthy (msg_body m) = true ->
  exists e, body_text (snd (load_msg E file_path v))
            = "<pre>" +:+ e +:+ "</pre>" /\
            no_markup e = true.
Proof.
  intros Hread Hhtml Hplain.
  rewrite (load_msg_body_text E _ _ m Hread).
  unfold msg_file_body. rewrite Hhtml, Hplain.
  destruct (msg_body m) as [b|]; [|done].
  exists (Py.escape (as_text (decode_utf8 E) b)).
  split; [done|apply escape_no_markup].
Qed.

Lemma plain_body_has_no_markup_witness :
  exists e, body_text (snd (load_msg refusing_env "/d/m.msg" (init_viewer ∅)))
            = "<pre>" +:+ e +:+ "</pre>" /\
            no_markup e = true.
Proof.
  apply (plain_body_has_no_markup refusing_env "/d/m.msg" two_attachments_msg
           (init_viewer ∅)); reflexivity.
Defined.

(** X17.  The file dialog and the drop differ on a file that has no email
    file name: the drop ignores it and leaves the viewer as it was, whereas
    the dialog hands it to [load_email_file], which ends in the
    unsupported-format warning; a cancelled dialog changes nothing. *)
Theorem dialog_opens_what_drop_ignores (E : Env) (file_path : string)
    (v : Viewer) :
  open_file_dialog E "" v = (inr tt, v) /\
  (Py.truthy file_path = true -> is_email_path file_path = false ->
     dropEvent E [file_path] v = (inr tt, v) /\
     fst (open_file_dialog E file_path v) = inr tt /\
     warnings (snd (open_file_dialog E file_path v))
     = warnings v ++ ["Unsupported file format."]).
Proof.
  split; [done|]. intros Hchosen Hpath. simpl. rewrite Hpath.
  split; [done|]. unfold open_file_dialog. rewrite Hchosen.
  apply load_email_file_unsupported; intros Hext;
    rewrite dispatched_is_email_path in Hpath by auto; done.
Qed.

Lemma dialog_opens_what_drop_ignores_witness :
  dropEvent nav_env ["/d/notes.txt"] (init_viewer ∅) = (inr tt, init_viewer ∅) /\
  fst (open_file_dialog nav_env "/d/notes.txt" (init_viewer ∅)) = inr tt /\
  warnings (snd (open_file_dialog nav_env "/d/notes.txt" (init_viewer ∅)))
  = warnings (init_viewer ∅) ++ ["Unsupported file format."].
Proof.
  apply (proj2 (dialog_opens_what_drop_ignores nav_env "/d/notes.txt"
                  (init_viewer ∅))); reflexivity.
Defined.

(** ** Further properties: the file list over a directory listing *)

Section DirectoryListing.














End DirectoryListing.




